(** * dunet.py: the dynamic U-Net decoder, at the level of tensor sizes

    A shallow embedding of [src/dunet.py].  The program builds the decoder
    of a segmentation network during the first call of
    [DynamicUnet.forward], from the sizes of the activations recorded by
    forward hooks.  Everything the program decides is decided from tensor
    sizes ([Tensor.size()]) and from the presence of attributes
    ([hasattr]), so a tensor is represented by its size and the instance
    by a record of optional attributes.  Python exceptions are explicit
    results. *)

From Stdlib Require Import ZArith Lia.
From stdpp Require Import base tactics option list sorting.

Local Open Scope Z_scope.

(** ** Python results and exceptions *)

Inductive exn : Set :=
| IndexError      (* sequence index out of range *)
| AttributeError  (* attribute read on an object that lacks it *)
| TypeError       (* [None] passed where a tensor is needed *)
| ValueError      (* input of the wrong rank given to a normalization *)
| RuntimeError.   (* size mismatch reported by the tensor runtime *)

Inductive result (A : Type) : Type :=
| Ok (a : A)
| Raise (e : exn).
Arguments Ok {A} a.
Arguments Raise {A} e.

#[global] Instance result_ret : MRet result := λ A a, Ok a.
#[global] Instance result_bind : MBind result := λ A B f m,
  match m with Ok a => f a | Raise e => Raise e end.
#[global] Instance result_fmap : FMap result := λ A B f m,
  match m with Ok a => Ok (f a) | Raise e => Raise e end.
#[global] Instance result_throw : MThrow exn result := λ A e, Raise e.

Definition is_Ok {A} (r : result A) : bool :=
  match r with Ok _ => true | Raise _ => false end.

(** ** Python sequences: indexing and slicing with negative positions *)

(** [l[i]] *)
Definition py_index {A} (l : list A) (i : Z) : result A :=
  let n := Z.of_nat (length l) in
  let j := if i <? 0 then i + n else i in
  if (j <? 0) || (n <=? j) then Raise IndexError
  else match l !! Z.to_nat j with
       | Some a => Ok a
       | None => Raise IndexError
       end.

(** The position a slice bound [i] denotes in a sequence of length [n]. *)
Definition py_clip (n : nat) (i : Z) : nat :=
  Z.to_nat (Z.min (Z.of_nat n) (Z.max 0 (if i <? 0 then i + Z.of_nat n else i))).

(** [l[i:]] *)
Definition py_slice_from {A} (l : list A) (i : Z) : list A :=
  drop (py_clip (length l) i) l.

(** [l[:i]] *)
Definition py_slice_to {A} (l : list A) (i : Z) : list A :=
  take (py_clip (length l) i) l.

(** [l[::-1]] *)
Definition py_reversed {A} (l : list A) : list A := reverse l.

(** [list(range(n))] *)
Definition py_range (n : nat) : list Z := Z.of_nat <$> seq 0 n.

(** ** Tensors and recorded activations *)

(** A tensor is represented by its size, the value of [Tensor.size()]. *)
Abbreviation tensor := (list Z).

(** [SaveFeatures]: [features] is the class attribute [None] until the
    forward hook has stored an output. *)
Record SaveFeatures : Type := { features : option tensor }.

(** [SaveFeatures.hook_fn]: [self.features = output] *)
Definition hook_fn (self : SaveFeatures) (output : tensor) : SaveFeatures :=
  {| features := Some output |}.

(** [sfs_feats.features.size()]: [None] has no method [size]. *)
Definition features_size (sfs_feats : SaveFeatures) : result tensor :=
  match features sfs_feats with
  | Some t => Ok t
  | None => Raise AttributeError
  end.

(** ** get_sfs_idxs *)

(** [np.where(np.array(a) != np.array(b))[0]] for two sequences of one
    length: the positions, counted from [i], at which they differ. *)
Fixpoint np_where_ne (i : Z) (a b : list Z) : list Z :=
  match a, b with
  | x :: a', y :: b' =>
      if bool_decide (x ≠ y) then i :: np_where_ne (i + 1) a' b'
      else np_where_ne (i + 1) a' b'
  | _, _ => []
  end.

Definition get_sfs_idxs (sfs : list SaveFeatures) (last : bool) : result (list Z) :=
  if last then
    feature_szs ← mapM (λ sfs_feats, sz ← features_size sfs_feats; py_index sz (-1)) sfs;
    let sfs_idxs :=
      np_where_ne 0 (py_slice_to feature_szs (-1)) (py_slice_from feature_szs 1) in
    a ← py_index feature_szs 0;
    b ← py_index feature_szs 1;
    if bool_decide (a ≠ b) then Ok (0 :: sfs_idxs) else Ok sfs_idxs
  else Ok (py_range (length sfs)).

(** A recorder holding an activation of size [sz]. *)
Definition recorded (sz : tensor) : SaveFeatures := {| features := Some sz |}.

(** ** Layers of the tensor runtime

    The layers the program constructs from [torch.nn], with the
    constructor arguments it gives them.  [Conv2d in out k s p] is
    [nn.Conv2d(in, out, k, s, p)]; [ConvTranspose2d in out k s] is
    [nn.ConvTranspose2d(in, out, k, s)]. *)

Inductive layer : Set :=
| Conv2d (in_channels out_channels kernel_size stride padding : Z)
| ConvTranspose2d (in_channels out_channels kernel_size stride : Z)
| ReLU
| BatchNorm2d (num_features : Z).

(** The attribute [out_channels], which only convolutions have. *)
Definition out_channels (l : layer) : result Z :=
  match l with
  | Conv2d _ c _ _ _ | ConvTranspose2d _ c _ _ => Ok c
  | ReLU | BatchNorm2d _ => Raise AttributeError
  end.

(** The attribute [in_channels]. *)
Definition in_channels (l : layer) : result Z :=
  match l with
  | Conv2d c _ _ _ _ | ConvTranspose2d c _ _ _ => Ok c
  | ReLU | BatchNorm2d _ => Raise AttributeError
  end.

(** The tensor runtime is an external collaborator.  The program uses two
    of its operations that can fail: calling a layer on a tensor, and
    [torch.cat([a, b], dim=1)].  The construction logic is verified for
    any runtime; [torch] below gives the size rules of the real one. *)
Class TensorRuntime : Type := {
  call_layer : layer → tensor → result tensor;
  cat_dim1 : tensor → tensor → result tensor
}.

(** Size rule of a layer on a batched input [n; c; h; w]: the channel
    count must be the layer's [in_channels] (or [num_features]); a
    convolution needs a positive stride and a padded input no smaller than
    its kernel, and yields [(h + 2p - k) // s + 1]; a transposed
    convolution yields [(h - 1) * s + k].  Inputs of another rank are
    rejected; an activation keeps any size.  These are the size rules
    alone: they tell which size a call returns when it returns, and are
    used for statements about calls that return and about calls that
    cannot.  The checks that the real layers add (positive channel counts,
    padding that is not negative, more than one value per channel in
    training mode) are those of [torch_train_call_layer] below. *)
Definition torch_call_layer (l : layer) (input : tensor) : result tensor :=
  match l, input with
  | Conv2d in_c out_c k s p, [n; c; h; w] =>
      if bool_decide (c = in_c ∧ 0 < s ∧ k ≤ h + 2 * p ∧ k ≤ w + 2 * p)
      then Ok [n; out_c; (h + 2 * p - k) `div` s + 1; (w + 2 * p - k) `div` s + 1]
      else Raise RuntimeError
  | ConvTranspose2d in_c out_c k s, [n; c; h; w] =>
      if bool_decide (c = in_c)
      then Ok [n; out_c; (h - 1) * s + k; (w - 1) * s + k]
      else Raise RuntimeError
  | ReLU, _ => Ok input
  | BatchNorm2d num_features, [n; c; h; w] =>
      if bool_decide (c = num_features) then Ok input else Raise RuntimeError
  | BatchNorm2d _, _ => Raise ValueError
  | _, _ => Raise RuntimeError
  end.

(** Size rule of [torch.cat([a, b], dim=1)]: all sizes but that of
    dimension 1 must agree; the sizes of dimension 1 add up. *)
Definition torch_cat_dim1 (a b : tensor) : result tensor :=
  match a, b with
  | n1 :: c1 :: rest1, n2 :: c2 :: rest2 =>
      if bool_decide (n1 = n2 ∧ rest1 = rest2) then Ok (n1 :: c1 + c2 :: rest1)
      else Raise RuntimeError
  | _, _ => Raise IndexError
  end.

Definition torch : TensorRuntime :=
  {| call_layer := torch_call_layer; cat_dim1 := torch_cat_dim1 |}.

(** The layers as [forward] calls them, with the checks the real runtime
    makes on top of the size rules.  A layer is born in training mode and
    the program never leaves it.  A convolution, transposed or not, needs
    positive channel counts, kernel and stride and a padding that is not
    negative, and raises [RuntimeError] when called otherwise (a negative
    count is refused by the constructor already, so such a layer is never
    called); it takes a batch [n; c; h; w] or a single image [c; h; w].
    A batch normalization in training mode wants a batch, then more than
    one value per channel ([ValueError] both), then [num_features]
    channels ([RuntimeError]).  Whatever these rules return on a batch,
    the size rules of [torch_call_layer] return too. *)
Definition torch_train_call_layer (l : layer) (input : tensor) : result tensor :=
  match l with
  | Conv2d in_c out_c k s p =>
      let fits c h w := bool_decide (c = in_c ∧ k ≤ h + 2 * p ∧ k ≤ w + 2 * p) in
      let size h w := [out_c; (h + 2 * p - k) `div` s + 1; (w + 2 * p - k) `div` s + 1] in
      if bool_decide (1 ≤ in_c ∧ 1 ≤ out_c ∧ 1 ≤ k ∧ 1 ≤ s ∧ 0 ≤ p) then
        match input with
        | [n; c; h; w] => if fits c h w then Ok (n :: size h w) else Raise RuntimeError
        | [c; h; w] => if fits c h w then Ok (size h w) else Raise RuntimeError
        | _ => Raise RuntimeError
        end
      else Raise RuntimeError
  | ConvTranspose2d in_c out_c k s =>
      let size h w := [out_c; (h - 1) * s + k; (w - 1) * s + k] in
      if bool_decide (1 ≤ in_c ∧ 1 ≤ out_c ∧ 1 ≤ k ∧ 1 ≤ s) then
        match input with
        | [n; c; h; w] => if bool_decide (c = in_c) then Ok (n :: size h w) else Raise RuntimeError
        | [c; h; w] => if bool_decide (c = in_c) then Ok (size h w) else Raise RuntimeError
        | _ => Raise RuntimeError
        end
      else Raise RuntimeError
  | ReLU => Ok input
  | BatchNorm2d num_features =>
      match input with
      | [n; c; h; w] =>
          if bool_decide (n * (h * w) = 1) then Raise ValueError
          else if bool_decide (c = num_features) then Ok input
          else Raise RuntimeError
      | _ => Raise ValueError
      end
  end.

Definition torch_train : TensorRuntime :=
  {| call_layer := torch_train_call_layer; cat_dim1 := torch_cat_dim1 |}.

(** [F.relu], [Tensor.sigmoid] and the detached copy
    [Variable(x.data, requires_grad=False)] keep the size of their
    argument. *)
Definition F_relu (x : tensor) : tensor := x.
Definition sigmoid (x : tensor) : tensor := x.
Definition detached (x : tensor) : tensor := x.

(** Calling an [nn.Sequential]: its layers are called in order. *)
Fixpoint Sequential_call `{TensorRuntime} (layers : list layer) (x : tensor) : result tensor :=
  match layers with
  | [] => Ok x
  | l :: layers' => y ← call_layer l x; Sequential_call layers' y
  end.

(** ** conv_bn_relu *)

Definition conv_bn_relu (in_c out_c kernel_size stride padding : Z) : list layer :=
  [Conv2d in_c out_c kernel_size stride padding; ReLU; BatchNorm2d out_c].

(** ** UnetBlock *)

Record UnetBlock : Set := {
  upconv : layer;
  conv1 : layer;
  conv2 : layer;
  bn : layer
}.

(** [UnetBlock.__init__]; [//] is floor division. *)
Definition UnetBlock_init (up_in_c x_in_c : Z) : UnetBlock :=
  {| upconv := ConvTranspose2d up_in_c (up_in_c `div` 2) 2 2;
     conv1 := Conv2d (x_in_c + up_in_c `div` 2) ((x_in_c + up_in_c `div` 2) `div` 2) 3 1 1;
     conv2 := Conv2d ((x_in_c + up_in_c `div` 2) `div` 2) ((x_in_c + up_in_c `div` 2) `div` 2) 3 1 1;
     bn := BatchNorm2d ((x_in_c + up_in_c `div` 2) `div` 2) |}.

(** [UnetBlock.forward]; [x_in] is the attribute [features] of a recorder,
    which is [None] before the first encoder pass. *)
Definition UnetBlock_forward `{TensorRuntime}
    (self : UnetBlock) (up_in : tensor) (x_in : option tensor) : result tensor :=
  up_out ← call_layer (upconv self) up_in;
  x_in ← (match x_in with Some t => Ok t | None => Raise TypeError end);
  cat_x ← cat_dim1 up_out x_in;
  x ← F_relu <$> call_layer (conv1 self) cat_x;
  x ← F_relu <$> call_layer (conv2 self) x;
  call_layer (bn self) x.

(** ** DynamicUnet *)

(** A child module of the encoder: opaque, known by the size it gives to
    its output (or the failure it raises) on an input of a given size. *)
Definition stage : Type := tensor → result tensor.

(** The attributes of an instance.  Those bound by [__init__] are always
    present; those bound during [forward] are optional, and [hasattr]
    asks whether they are present. *)
Record DynamicUnet : Type := {
  encoder : list stage;
  n_children : nat;
  sfs : list SaveFeatures;
  last : bool;
  n_classes : Z;
  sfs_szs : option (list tensor);
  sfs_idxs : option (list Z);
  middle_conv : option (list layer);
  upmodel : option (list UnetBlock);
  extra_block : option layer;
  final_conv : option layer
}.

(** [DynamicUnet.__init__]: one recorder per child, nothing recorded. *)
Definition DynamicUnet_init (encoder : list stage) (last : bool) (n_classes : Z) : DynamicUnet :=
  {| encoder := encoder;
     n_children := length encoder;
     sfs := (λ _, {| features := None |}) <$> seq 0 (length encoder);
     last := last;
     n_classes := n_classes;
     sfs_szs := None; sfs_idxs := None; middle_conv := None;
     upmodel := None; extra_block := None; final_conv := None |}.

(** Attribute assignments [self.a = v]. *)
Definition set_sfs (v : list SaveFeatures) (s : DynamicUnet) : DynamicUnet :=
  {| encoder := encoder s; n_children := n_children s; sfs := v; last := last s;
     n_classes := n_classes s; sfs_szs := sfs_szs s; sfs_idxs := sfs_idxs s;
     middle_conv := middle_conv s; upmodel := upmodel s;
     extra_block := extra_block s; final_conv := final_conv s |}.
Definition set_sfs_szs (v : list tensor) (s : DynamicUnet) : DynamicUnet :=
  {| encoder := encoder s; n_children := n_children s; sfs := sfs s; last := last s;
     n_classes := n_classes s; sfs_szs := Some v; sfs_idxs := sfs_idxs s;
     middle_conv := middle_conv s; upmodel := upmodel s;
     extra_block := extra_block s; final_conv := final_conv s |}.
Definition set_sfs_idxs (v : list Z) (s : DynamicUnet) : DynamicUnet :=
  {| encoder := encoder s; n_children := n_children s; sfs := sfs s; last := last s;
     n_classes := n_classes s; sfs_szs := sfs_szs s; sfs_idxs := Some v;
     middle_conv := middle_conv s; upmodel := upmodel s;
     extra_block := extra_block s; final_conv := final_conv s |}.
Definition set_middle_conv (v : list layer) (s : DynamicUnet) : DynamicUnet :=
  {| encoder := encoder s; n_children := n_children s; sfs := sfs s; last := last s;
     n_classes := n_classes s; sfs_szs := sfs_szs s; sfs_idxs := sfs_idxs s;
     middle_conv := Some v; upmodel := upmodel s;
     extra_block := extra_block s; final_conv := final_conv s |}.
Definition set_upmodel (v : list UnetBlock) (s : DynamicUnet) : DynamicUnet :=
  {| encoder := encoder s; n_children := n_children s; sfs := sfs s; last := last s;
     n_classes := n_classes s; sfs_szs := sfs_szs s; sfs_idxs := sfs_idxs s;
     middle_conv := middle_conv s; upmodel := Some v;
     extra_block := extra_block s; final_conv := final_conv s |}.
Definition set_extra_block (v : layer) (s : DynamicUnet) : DynamicUnet :=
  {| encoder := encoder s; n_children := n_children s; sfs := sfs s; last := last s;
     n_classes := n_classes s; sfs_szs := sfs_szs s; sfs_idxs := sfs_idxs s;
     middle_conv := middle_conv s; upmodel := upmodel s;
     extra_block := Some v; final_conv := final_conv s |}.
Definition set_final_conv (v : layer) (s : DynamicUnet) : DynamicUnet :=
  {| encoder := encoder s; n_children := n_children s; sfs := sfs s; last := last s;
     n_classes := n_classes s; sfs_szs := sfs_szs s; sfs_idxs := sfs_idxs s;
     middle_conv := middle_conv s; upmodel := upmodel s;
     extra_block := extra_block s; final_conv := Some v |}.

(** *** Methods: computations that read and assign attributes of [self]
    and may raise.  An exception leaves the assignments made so far. *)

Definition Py (A : Type) : Type := DynamicUnet → DynamicUnet * result A.

#[global] Instance Py_ret : MRet Py := λ A a self, (self, Ok a).
#[global] Instance Py_bind : MBind Py := λ A B f m self,
  match m self with
  | (self', Ok a) => f a self'
  | (self', Raise e) => (self', Raise e)
  end.

(** A computation that does not touch [self]. *)
Definition lift {A} (r : result A) : Py A := λ self, (self, r).

(** [self.a] for an attribute bound by [__init__]. *)
Definition attr {A} (a : DynamicUnet → A) : Py A := λ self, (self, Ok (a self)).

(** [self.a] for an attribute bound during [forward]. *)
Definition getattr {A} (a : DynamicUnet → option A) : Py A := λ self,
  (self, match a self with Some v => Ok v | None => Raise AttributeError end).

(** [hasattr(self, 'a')] *)
Definition hasattr {A} (a : DynamicUnet → option A) : Py bool := λ self,
  (self, Ok (match a self with Some _ => true | None => false end)).

(** [self.a = v] *)
Definition assign (set : DynamicUnet → DynamicUnet) : Py unit := λ self, (set self, Ok ()).

(** Calling the encoder, an [nn.Sequential]: each child is called on the
    output of the one before it, and its forward hook stores the output
    in the recorder registered for it, [self.sfs[i]]. *)
Fixpoint encoder_call (children : list stage) (i : nat) (x : tensor) : Py tensor :=
  match children with
  | [] => mret x
  | m :: children' =>
      output ← lift (m x);
      assign (λ self, set_sfs (alter (λ sf, hook_fn sf output) i (sfs self)) self);;
      encoder_call children' (S i) output
  end.

(** Lines 98-104 of [forward]: the block guarded by
    [not hasattr(self, 'middle_conv')]. *)
Definition init_middle_conv : Py unit :=
  recorders ← attr sfs;
  szs ← lift (mapM features_size recorders);
  assign (set_sfs_szs szs);;
  recorders ← attr sfs;
  only_last ← attr last;
  idxs ← lift (get_sfs_idxs recorders only_last);
  assign (set_sfs_idxs idxs);;
  szs ← getattr sfs_szs;
  sz ← lift (py_index szs (-1));
  middle_in_c ← lift (py_index sz 1);
  let middle_conv :=
    conv_bn_relu middle_in_c (middle_in_c * 2) 3 1 1 ++
    conv_bn_relu (middle_in_c * 2) middle_in_c 3 1 1 in
  assign (set_middle_conv middle_conv).

(** Lines 113-118: the loop over [self.sfs_idxs[::-1]].  [self.upmodel]
    is assigned at the end of every iteration, so it is not assigned when
    the loop body never completes. *)
Fixpoint build_upmodel `{TensorRuntime}
    (idxs : list Z) (blocks : list UnetBlock) (x_copy : tensor) : Py tensor :=
  match idxs with
  | [] => mret x_copy
  | idx :: idxs' =>
      up_in_c ← lift (py_index x_copy 1);
      szs ← getattr sfs_szs;
      sz ← lift (py_index szs idx);
      x_in_c ← lift (py_index sz 1);
      let unet_block := UnetBlock_init up_in_c x_in_c in
      let blocks := blocks ++ [unet_block] in
      recorders ← attr sfs;
      recorder ← lift (py_index recorders idx);
      x_copy ← lift (UnetBlock_forward unet_block x_copy (features recorder));
      assign (set_upmodel blocks);;
      build_upmodel idxs' blocks x_copy
  end.

(** Lines 110-125: the block guarded by [not hasattr(self, 'upmodel')]. *)
Definition init_upmodel `{TensorRuntime} (imsize : tensor) (x : tensor) : Py unit :=
  let x_copy := detached x in
  idxs ← getattr sfs_idxs;
  build_upmodel (py_reversed idxs) [] x_copy;;
  szs ← getattr sfs_szs;
  sz ← lift (py_index szs 0);
  (if bool_decide (imsize ≠ py_slice_from sz (-2)) then
     blocks ← getattr upmodel;
     block ← lift (py_index blocks (-1));
     extra_in_c ← lift (out_channels (conv2 block));
     assign (set_extra_block (ConvTranspose2d extra_in_c extra_in_c 2 2))
   else mret ());;
  blocks ← getattr upmodel;
  block ← lift (py_index blocks (-1));
  final_in_c ← lift (out_channels (conv2 block));
  classes ← attr n_classes;
  assign (set_final_conv (Conv2d final_in_c classes 1 1 0)).

(** Lines 128-129: the loop over [zip(self.upmodel, self.sfs_idxs[::-1])]. *)
Fixpoint run_upsample `{TensorRuntime} (pairs : list (UnetBlock * Z)) (x : tensor) : Py tensor :=
  match pairs with
  | [] => mret x
  | (block, idx) :: pairs' =>
      recorders ← attr sfs;
      recorder ← lift (py_index recorders idx);
      x ← lift (UnetBlock_forward block x (features recorder));
      run_upsample pairs' x
  end.

(** [DynamicUnet.forward] *)
Definition DynamicUnet_forward `{TensorRuntime} (x : tensor) : Py tensor :=
  let imsize := py_slice_from x (-2) in
  children ← attr encoder;
  x ← encoder_call children 0 x;
  let x := F_relu x in
  built ← hasattr middle_conv;
  (if negb built then init_middle_conv else mret ());;
  layers ← getattr middle_conv;
  x ← lift (Sequential_call layers x);
  built ← hasattr upmodel;
  (if negb built then init_upmodel imsize x else mret ());;
  blocks ← getattr upmodel;
  idxs ← getattr sfs_idxs;
  x ← run_upsample (zip blocks (py_reversed idxs)) x;
  extra ← attr extra_block;
  x ← (match extra with Some layer => lift (call_layer layer x) | None => mret x end);
  layer ← getattr final_conv;
  out ← lift (call_layer layer x);
  mret (sigmoid out).

(** The first call of [forward] on a new instance: the instance it leaves
    and what the call returns or raises. *)
Definition first_call `{TensorRuntime}
    (encoder : list stage) (last : bool) (n_classes : Z) (x : tensor)
    : DynamicUnet * result tensor :=
  DynamicUnet_forward x (DynamicUnet_init encoder last n_classes).

(** The attributes that make up the decoder topology. *)
Definition topology (s : DynamicUnet) :=
  (sfs_idxs s, sfs_szs s, middle_conv s, upmodel s, extra_block s, final_conv s).

(** Successive calls of [forward] on one instance; a call that raises
    leaves the instance as the exception left it. *)
Definition forward_calls `{TensorRuntime} (xs : list tensor) (s : DynamicUnet) : DynamicUnet :=
  foldl (λ s x, (DynamicUnet_forward x s).1) s xs.

(** *** Sample encoders *)

(** A child that keeps the batch size, sets the channel count to [c] and
    divides both spatial sizes by [d]; it rejects other ranks. *)
Definition pool (c d : Z) : stage := λ x,
  match x with
  | [n; _; h; w] => Ok [n; c; h `div` d; w `div` d]
  | _ => Raise RuntimeError
  end.

(** An encoder of seven children in the manner of the clipped ResNet of
    [get_dunet]: a first child that halves the input, three children that
    keep the size, then three halvings. *)
Definition resnet_like : list stage :=
  [pool 8 2; pool 8 1; pool 8 1; pool 8 1; pool 16 2; pool 32 2; pool 64 2].

(** An encoder of constant resolution: no child changes the size. *)
Definition constant_resolution : list stage := [pool 8 1; pool 16 1].

(** The first calls of the sample runs: a batch of one 32x32 image with
    three channels, one output class, the size rules of [torch]. *)
Abbreviation resnet_like_run :=
  (@first_call torch resnet_like true 1 [1; 3; 32; 32]).

Abbreviation constant_resolution_run :=
  (@first_call torch constant_resolution true 1 [1; 3; 32; 32]).

(** An encoder that halves the size at every child after the first. *)
Definition halving : list stage := [pool 8 1; pool 16 2; pool 32 2; pool 64 2].

Abbreviation halving_run :=
  (@first_call torch halving true 1 [1; 3; 32; 32]).

(** The activations of an encoder pass: the outputs of the children in
    order, each child called on the output of the one before it. *)
Fixpoint activations (children : list stage) (x : tensor) : result (list tensor) :=
  match children with
  | [] => Ok []
  | m :: children' => y ← m x; ys ← activations children' y; Ok (y :: ys)
  end.

(** The decoder blocks for a tensor of [up_in_c] channels and skip
    activations of [x_in_cs] channels, in the order they are consumed:
    each block is built for the channels its predecessor returns. *)
Fixpoint decoder_blocks (up_in_c : Z) (x_in_cs : list Z) : list UnetBlock :=
  match x_in_cs with
  | [] => []
  | x_in_c :: x_in_cs' =>
      UnetBlock_init up_in_c x_in_c
      :: decoder_blocks ((x_in_c + up_in_c `div` 2) `div` 2) x_in_cs'
  end.

(** * Properties *)

(** ** Python sequences *)

Lemma py_index_last {A} (l : list A) (a : A) : py_index (l ++ [a]) (-1) = Ok a.
Proof.
  unfold py_index. rewrite length_app. simpl length. cbv zeta.
  replace (-1 <? 0) with true by reflexivity. cbv iota.
  replace (-1 + Z.of_nat (length l + 1)) with (Z.of_nat (length l)) by lia.
  replace (Z.of_nat (length l) <? 0) with false by (symmetry; apply Z.ltb_ge; lia).
  replace (Z.of_nat (length l + 1) <=? Z.of_nat (length l)) with false
    by (symmetry; apply Z.leb_gt; lia).
  cbn [orb]. rewrite Nat2Z.id. by rewrite list_lookup_middle.
Qed.

Lemma py_index_nat {A} (l : list A) (i : nat) :
  py_index l (Z.of_nat i) = match l !! i with Some a => Ok a | None => Raise IndexError end.
Proof.
  unfold py_index. cbv zeta.
  assert ((Z.of_nat i <? 0) = false) as E by (apply Z.ltb_ge; lia).
  rewrite E. cbv iota. rewrite E. cbn [orb]. rewrite Nat2Z.id.
  destruct (Z.leb_spec (Z.of_nat (length l)) (Z.of_nat i)); [| done].
  rewrite lookup_ge_None_2; [done | lia].
Qed.

Lemma py_index_Raise {A} (l : list A) (i : Z) (e : exn) :
  py_index l i = Raise e → e = IndexError.
Proof.
  unfold py_index. cbv zeta.
  destruct (_ || _); [congruence |]. destruct (_ !! _); congruence.
Qed.

Lemma py_index_0 {A} (a : A) (l : list A) : py_index (a :: l) 0 = Ok a.
Proof. apply (py_index_nat (a :: l) 0). Qed.

Lemma py_index_1 {A} (a b : A) (l : list A) : py_index (a :: b :: l) 1 = Ok b.
Proof. apply (py_index_nat (a :: b :: l) 1). Qed.

Lemma py_index_fmap {A B} (f : A → B) (l : list A) (i : Z) :
  py_index (f <$> l) i = f <$> py_index l i.
Proof.
  unfold py_index. rewrite length_fmap, list_lookup_fmap. cbv zeta.
  destruct (_ || _); [done |]. by destruct (l !! _).
Qed.

Lemma py_range_length n : length (py_range n) = n.
Proof. unfold py_range. by rewrite length_fmap, length_seq. Qed.

Lemma py_range_lookup n i : (i < n)%nat → py_range n !! i = Some (Z.of_nat i).
Proof.
  intros Hi. unfold py_range. rewrite list_lookup_fmap, lookup_seq_lt; [done | lia].
Qed.

(** ** get_sfs_idxs *)

Lemma mapM_result_cons {A B} (f : A → result B) (x : A) (l : list A) :
  mapM f (x :: l) = y ← f x; k ← mapM f l; mret (y :: k).
Proof. reflexivity. Qed.

(** The sizes [get_sfs_idxs] reads off a sequence of recorded activations. *)
Lemma feature_szs_recorded (szs : list tensor) (ws : list Z) :
  Forall2 (λ sz w, ∃ pre, sz = pre ++ [w]) szs ws →
  mapM (λ sfs_feats, sz ← features_size sfs_feats; py_index sz (-1)) (recorded <$> szs) = Ok ws.
Proof.
  induction 1 as [| sz w szs ws [pre ->] _ IH]; [done |].
  rewrite fmap_cons, mapM_result_cons, IH.
  unfold recorded, features_size. cbn [features mbind result_bind].
  by rewrite py_index_last.
Qed.

(** Recorders whose sizes can all be read hold exactly these sizes. *)
Lemma features_size_Ok (sfs : list SaveFeatures) (szs : list tensor) :
  mapM features_size sfs = Ok szs → sfs = recorded <$> szs.
Proof.
  revert szs. induction sfs as [| [[sz |]] sfs IH]; intros szs.
  - by intros [= <-].
  - rewrite mapM_result_cons.
    change (features_size {| features := Some sz |}) with (Ok sz).
    cbn [mbind result_bind].
    destruct (mapM features_size sfs) as [szs' |]; [| discriminate].
    intros [= <-]. by rewrite (IH szs').
  - rewrite mapM_result_cons.
    change (features_size {| features := None |}) with (@Raise tensor AttributeError).
    discriminate.
Qed.

Lemma recorded_index (sfs : list SaveFeatures) (szs : list tensor) (i : Z) (sz : tensor) :
  mapM features_size sfs = Ok szs → py_index szs i = Ok sz →
  ∃ recorder, py_index sfs i = Ok recorder ∧ features recorder = Some sz.
Proof.
  intros ->%features_size_Ok Hsz. exists (recorded sz).
  by rewrite py_index_fmap, Hsz.
Qed.

(** C1.  On recorded activations whose trailing sizes are [16; 8; 8; 4],
    [get_sfs_idxs] with [last = true] returns [[0; 0; 2]]: the positions 0
    and 2 at which the size changes, found by [np.where], with a second 0
    put in front because the first two sizes differ.  The list [[0; 2]]
    is not what is returned. *)
Theorem get_sfs_idxs_16_8_8_4 (p0 p1 p2 p3 : tensor) :
  get_sfs_idxs
    (recorded <$> [p0 ++ [16]; p1 ++ [8]; p2 ++ [8]; p3 ++ [4]]) true = Ok [0; 0; 2]
  ∧ get_sfs_idxs
    (recorded <$> [p0 ++ [16]; p1 ++ [8]; p2 ++ [8]; p3 ++ [4]]) true ≠ Ok [0; 2].
Proof.
  assert (get_sfs_idxs
    (recorded <$> [p0 ++ [16]; p1 ++ [8]; p2 ++ [8]; p3 ++ [4]]) true = Ok [0; 0; 2]) as ->.
  { unfold get_sfs_idxs.
    rewrite (feature_szs_recorded _ [16; 8; 8; 4]); [reflexivity |].
    repeat constructor; eauto. }
  split; [done | discriminate].
Qed.

(** C6.  On recorded activations whose trailing sizes are
    [32; 32; 16; 16; 8], [get_sfs_idxs] with [last = true] returns
    [[1; 3]], the position just before each change of size; no 0 is put in
    front, the first two sizes being equal. *)
Theorem get_sfs_idxs_32_32_16_16_8 (p0 p1 p2 p3 p4 : tensor) :
  get_sfs_idxs
    (recorded <$> [p0 ++ [32]; p1 ++ [32]; p2 ++ [16]; p3 ++ [16]; p4 ++ [8]]) true
  = Ok [1; 3].
Proof.
  unfold get_sfs_idxs.
  rewrite (feature_szs_recorded _ [32; 32; 16; 16; 8]); [reflexivity |].
  repeat constructor; eauto.
Qed.

(** C8.  With [last = false], [get_sfs_idxs] returns the ascending list of
    all positions [0 .. N-1] of a sequence of [N] recorders, whatever they
    hold, even nothing. *)
Theorem get_sfs_idxs_all (sfs : list SaveFeatures) :
  ∃ idxs : list Z,
    get_sfs_idxs sfs false = Ok idxs
    ∧ length idxs = length sfs
    ∧ ∀ i : nat, (i < length sfs)%nat → idxs !! i = Some (Z.of_nat i).
Proof.
  exists (py_range (length sfs)). split; [reflexivity |].
  split; [apply py_range_length | apply py_range_lookup].
Qed.

Lemma feature_szs_total (sfs : list SaveFeatures) :
  Forall (λ sf, ∃ pre w, features sf = Some (pre ++ [w])) sfs →
  ∃ ws : list Z,
    mapM (λ sfs_feats, sz ← features_size sfs_feats; py_index sz (-1)) sfs = Ok ws
    ∧ length ws = length sfs.
Proof.
  induction 1 as [| sf sfs (pre & w & Hsf) _ (ws & IH & Hlen)].
  - by exists [].
  - exists (w :: ws). rewrite mapM_result_cons, IH.
    unfold features_size. rewrite Hsf. cbn [mbind result_bind].
    rewrite py_index_last. simpl. by rewrite Hlen.
Qed.

(** C9.  With [last = true], [get_sfs_idxs] on a single recorded
    activation raises [IndexError], whatever the activation's size; on
    recorded activations of rank at least one it returns a list exactly
    when there are at least two of them. *)
Theorem get_sfs_idxs_needs_two :
  (∀ sz : tensor, get_sfs_idxs [recorded sz] true = Raise IndexError)
  ∧ (∀ sfs : list SaveFeatures,
       Forall (λ sf, ∃ pre w, features sf = Some (pre ++ [w])) sfs →
       is_Ok (get_sfs_idxs sfs true) = true ↔ (2 ≤ length sfs)%nat).
Proof.
  split.
  - intros sz. unfold get_sfs_idxs, recorded, features_size.
    rewrite mapM_result_cons. cbn [features mbind result_bind].
    destruct (py_index sz (-1)) as [w | e] eqn:Hw; [reflexivity |].
    by rewrite (py_index_Raise _ _ _ Hw).
  - intros sfs Hrec. destruct (feature_szs_total sfs Hrec) as (ws & Hws & Hlen).
    unfold get_sfs_idxs. rewrite Hws, <- Hlen. cbn [mbind result_bind].
    destruct ws as [| a [| b ws]].
    + simpl. split; [discriminate | lia].
    + simpl. split; [discriminate | lia].
    + rewrite py_index_0, py_index_1. simpl. split; [lia |].
      by destruct (bool_decide (a ≠ b)).
Qed.

Lemma get_sfs_idxs_needs_two_witness :
  get_sfs_idxs [recorded [1; 3; 8; 8]] true = Raise IndexError
  ∧ is_Ok (get_sfs_idxs [recorded [1; 3; 8; 8]; recorded [1; 3; 4; 4]] true) = true.
Proof.
  split.
  - apply (proj1 get_sfs_idxs_needs_two).
  - apply (proj2 get_sfs_idxs_needs_two).
    + repeat constructor; by eexists [_; _; _], _.
    + simpl. lia.
Defined.

(** ** UnetBlock, with the size rules of [torch] *)

Lemma torch_conv3 (c o n h w : Z) :
  1 ≤ h → 1 ≤ w → torch_call_layer (Conv2d c o 3 1 1) [n; c; h; w] = Ok [n; o; h; w].
Proof.
  intros Hh Hw. unfold torch_call_layer.
  rewrite bool_decide_true by lia. rewrite !Z.div_1_r.
  do 3 f_equal. f_equal; [lia |]. f_equal. lia.
Qed.

Lemma torch_upconv (c o n h w : Z) :
  torch_call_layer (ConvTranspose2d c o 2 2) [n; c; h; w] = Ok [n; o; 2 * h; 2 * w].
Proof.
  unfold torch_call_layer. rewrite bool_decide_true by done.
  do 3 f_equal. f_equal; [lia |]. f_equal. lia.
Qed.

Lemma torch_bn (c n h w : Z) :
  torch_call_layer (BatchNorm2d c) [n; c; h; w] = Ok [n; c; h; w].
Proof. unfold torch_call_layer. by rewrite bool_decide_true. Qed.

Lemma torch_cat (n c1 c2 : Z) (rest : tensor) :
  torch_cat_dim1 (n :: c1 :: rest) (n :: c2 :: rest) = Ok (n :: c1 + c2 :: rest).
Proof. unfold torch_cat_dim1. by rewrite bool_decide_true. Qed.

Lemma result_bind_Ok {A B} (m : result A) (f : A → result B) (b : B) :
  m ≫= f = Ok b → ∃ a, m = Ok a ∧ f a = Ok b.
Proof. destruct m as [a | e]; [by exists a | discriminate]. Qed.

Lemma result_fmap_Ok {A B} (m : result A) (f : A → B) (b : B) :
  f <$> m = Ok b → ∃ a, m = Ok a ∧ b = f a.
Proof. destruct m as [a | e]; [exists a; split; [done | simpl in *; congruence] | discriminate]. Qed.

Lemma torch_upconv_Ok (c o : Z) (x y : tensor) :
  torch_call_layer (ConvTranspose2d c o 2 2) x = Ok y →
  ∃ n h w, x = [n; c; h; w] ∧ y = [n; o; 2 * h; 2 * w].
Proof.
  destruct x as [| n [| c' [| h [| w [| ? ?]]]]]; try discriminate.
  unfold torch_call_layer. case_bool_decide as Hc; [subst c' | discriminate].
  intros [= <-]. exists n, h, w. split; [done |].
  do 2 f_equal. f_equal; [lia |]. f_equal. lia.
Qed.

Lemma torch_conv3_Ok (c o : Z) (x y : tensor) :
  torch_call_layer (Conv2d c o 3 1 1) x = Ok y →
  ∃ n h w, x = [n; c; h; w] ∧ y = [n; o; h; w] ∧ 1 ≤ h ∧ 1 ≤ w.
Proof.
  destruct x as [| n [| c' [| h [| w [| ? ?]]]]]; try discriminate.
  unfold torch_call_layer. case_bool_decide as Hc; [| discriminate].
  destruct Hc as (-> & _ & ? & ?). rewrite !Z.div_1_r.
  intros [= <-]. exists n, h, w. split; [done |]. split; [| lia].
  do 2 f_equal. f_equal; [lia |]. f_equal. lia.
Qed.

Lemma torch_bn_Ok (c : Z) (x y : tensor) :
  torch_call_layer (BatchNorm2d c) x = Ok y → y = x.
Proof.
  destruct x as [| n [| c' [| h [| w [| ? ?]]]]]; try discriminate.
  unfold torch_call_layer. case_bool_decide; [congruence | discriminate].
Qed.

Lemma torch_cat_Ok (a b y : tensor) :
  torch_cat_dim1 a b = Ok y →
  ∃ n c1 c2 rest, a = n :: c1 :: rest ∧ b = n :: c2 :: rest ∧ y = n :: c1 + c2 :: rest.
Proof.
  destruct a as [| n1 [| c1 rest1]]; try discriminate.
  destruct b as [| n2 [| c2 rest2]]; try discriminate.
  unfold torch_cat_dim1. case_bool_decide as H; [| discriminate].
  destruct H as [<- <-]. intros [= <-]. by exists n1, c1, c2, rest1.
Qed.

Section UnetBlock_sizes.
#[local] Existing Instance torch.

Lemma UnetBlock_forward_size (up_in_c x_in_c n h w : Z) :
  1 ≤ h → 1 ≤ w →
  UnetBlock_forward (UnetBlock_init up_in_c x_in_c)
    [n; up_in_c; h; w] (Some [n; x_in_c; 2 * h; 2 * w])
  = Ok [n; (x_in_c + up_in_c `div` 2) `div` 2; 2 * h; 2 * w].
Proof.
  intros Hh Hw. unfold UnetBlock_forward, UnetBlock_init.
  cbn [call_layer cat_dim1 torch upconv conv1 conv2 bn].
  rewrite torch_upconv. cbn [mbind result_bind].
  rewrite torch_cat. cbn [mbind result_bind].
  rewrite (Z.add_comm (up_in_c `div` 2)).
  rewrite torch_conv3 by lia. cbn [mbind result_bind fmap result_fmap]. unfold F_relu.
  rewrite torch_conv3 by lia. cbn [mbind result_bind fmap result_fmap].
  apply torch_bn.
Qed.

(** A block that returns was given a batched input with [up_in_c]
    channels and a skip activation of twice its spatial size, and returns
    that size. *)
Lemma UnetBlock_forward_Ok (up_in_c x_in_c : Z) (up_in : tensor) (x_in : option tensor)
    (out : tensor) :
  UnetBlock_forward (UnetBlock_init up_in_c x_in_c) up_in x_in = Ok out →
  ∃ n h w, up_in = [n; up_in_c; h; w]
    ∧ x_in = Some [n; x_in_c; 2 * h; 2 * w]
    ∧ out = [n; (x_in_c + up_in_c `div` 2) `div` 2; 2 * h; 2 * w].
Proof.
  unfold UnetBlock_forward, UnetBlock_init.
  cbn [call_layer cat_dim1 torch upconv conv1 conv2 bn].
  intros H.
  apply result_bind_Ok in H as (up_out & Hup & H).
  apply torch_upconv_Ok in Hup as (n & h & w & -> & ->).
  destruct x_in as [x_in |]; [| discriminate]. cbn [mbind result_bind] in H.
  apply result_bind_Ok in H as (cat_x & Hcat & H).
  apply torch_cat_Ok in Hcat as (n' & c1 & c2 & rest & [= <- <- <-] & -> & ->).
  apply result_bind_Ok in H as (x1 & H1 & H).
  apply result_fmap_Ok in H1 as (x1' & H1 & ->).
  apply torch_conv3_Ok in H1 as (n1 & h1 & w1 & [= <- Hc <- <-] & -> & _).
  apply result_bind_Ok in H as (x2 & H2 & H).
  apply result_fmap_Ok in H2 as (x2' & H2 & ->).
  apply torch_conv3_Ok in H2 as (n2 & h2 & w2 & [= <- <- <-] & -> & _).
  apply torch_bn_Ok in H as ->.
  exists n, h, w. split; [done |]. split; [| done].
  do 3 f_equal. lia.
Qed.

End UnetBlock_sizes.

(** ** UnetBlock, with the checks of [torch_train] *)

Lemma train_conv (in_c out_c k s p n h w : Z) :
  1 ≤ in_c → 1 ≤ out_c → 1 ≤ k → 1 ≤ s → 0 ≤ p → k ≤ h + 2 * p → k ≤ w + 2 * p →
  torch_train_call_layer (Conv2d in_c out_c k s p) [n; in_c; h; w]
  = Ok [n; out_c; (h + 2 * p - k) `div` s + 1; (w + 2 * p - k) `div` s + 1].
Proof.
  intros. unfold torch_train_call_layer. by rewrite !bool_decide_true by done.
Qed.

Lemma train_conv3 (c o n h w : Z) :
  1 ≤ c → 1 ≤ o → 1 ≤ h → 1 ≤ w →
  torch_train_call_layer (Conv2d c o 3 1 1) [n; c; h; w] = Ok [n; o; h; w].
Proof.
  intros. rewrite train_conv by lia. rewrite !Z.div_1_r.
  do 3 f_equal. f_equal; [lia |]. f_equal. lia.
Qed.

Lemma train_upconv (c o n h w : Z) :
  1 ≤ c → 1 ≤ o →
  torch_train_call_layer (ConvTranspose2d c o 2 2) [n; c; h; w] = Ok [n; o; 2 * h; 2 * w].
Proof.
  intros. unfold torch_train_call_layer. rewrite !bool_decide_true by (done || lia).
  do 3 f_equal. f_equal; [lia |]. f_equal. lia.
Qed.

Lemma train_bn (c n h w : Z) :
  n * (h * w) ≠ 1 → torch_train_call_layer (BatchNorm2d c) [n; c; h; w] = Ok [n; c; h; w].
Proof.
  intros. unfold torch_train_call_layer.
  by rewrite bool_decide_false, bool_decide_true.
Qed.

(** A convolution without valid arguments raises whatever it is given. *)
Lemma train_upconv_invalid (in_c out_c k s : Z) (x : tensor) :
  ¬ (1 ≤ in_c ∧ 1 ≤ out_c ∧ 1 ≤ k ∧ 1 ≤ s) →
  torch_train_call_layer (ConvTranspose2d in_c out_c k s) x = Raise RuntimeError.
Proof. intros. unfold torch_train_call_layer. by rewrite bool_decide_false. Qed.

Lemma train_conv_Ok (in_c out_c k s p : Z) (x y : tensor) :
  torch_train_call_layer (Conv2d in_c out_c k s p) x = Ok y →
  (1 ≤ in_c ∧ 1 ≤ out_c ∧ 1 ≤ k ∧ 1 ≤ s ∧ 0 ≤ p)
  ∧ ∃ (b : list Z) (h w : Z),
      (length b ≤ 1)%nat ∧ x = b ++ [in_c; h; w] ∧ k ≤ h + 2 * p ∧ k ≤ w + 2 * p
      ∧ y = b ++ [out_c; (h + 2 * p - k) `div` s + 1; (w + 2 * p - k) `div` s + 1].
Proof.
  unfold torch_train_call_layer. case_bool_decide as Hvalid; [| discriminate].
  intros Hcall. split; [done |].
  destruct x as [| a [| b [| c [| d [| ? ?]]]]]; try discriminate.
  - case_bool_decide as Hfits; [| discriminate]. destruct Hfits as (-> & ? & ?).
    injection Hcall as <-. exists [], b, c. split; [simpl; lia | done].
  - case_bool_decide as Hfits; [| discriminate]. destruct Hfits as (-> & ? & ?).
    injection Hcall as <-. exists [a], c, d. split; [simpl; lia | done].
Qed.

Lemma train_upconv_Ok (c o : Z) (x y : tensor) :
  torch_train_call_layer (ConvTranspose2d c o 2 2) x = Ok y →
  (1 ≤ c ∧ 1 ≤ o)
  ∧ ∃ (b : list Z) (h w : Z),
      (length b ≤ 1)%nat ∧ x = b ++ [c; h; w] ∧ y = b ++ [o; 2 * h; 2 * w].
Proof.
  unfold torch_train_call_layer. case_bool_decide as Hvalid; [| discriminate].
  intros Hcall. split; [lia |].
  destruct x as [| a [| b [| c' [| d [| ? ?]]]]]; try discriminate.
  - case_bool_decide as Hfits; [subst a | discriminate].
    injection Hcall as <-. exists [], b, c'. split; [simpl; lia |]. split; [done |].
    cbn [app]. f_equal. f_equal; [lia |]. f_equal. lia.
  - case_bool_decide as Hfits; [subst b | discriminate].
    injection Hcall as <-. exists [a], c', d. split; [simpl; lia |]. split; [done |].
    cbn [app]. do 2 f_equal. f_equal; [lia |]. f_equal. lia.
Qed.

Lemma train_bn_Ok (c : Z) (x y : tensor) :
  torch_train_call_layer (BatchNorm2d c) x = Ok y →
  ∃ n h w : Z, x = [n; c; h; w] ∧ n * (h * w) ≠ 1 ∧ y = x.
Proof.
  unfold torch_train_call_layer.
  destruct x as [| n [| c' [| h [| w [| ? ?]]]]]; try discriminate.
  case_bool_decide as Hone; [discriminate |].
  case_bool_decide as Hc; [subst c' | discriminate].
  intros [= <-]. by exists n, h, w.
Qed.

(** On a batch, what the checked rules return is what the size rules
    return. *)
Lemma torch_train_batch (l : layer) (n c h w : Z) (y : tensor) :
  torch_train_call_layer l [n; c; h; w] = Ok y → torch_call_layer l [n; c; h; w] = Ok y.
Proof.
  destruct l as [in_c out_c k s p | in_c out_c k s | | nf];
    unfold torch_train_call_layer, torch_call_layer.
  - case_bool_decide as Hvalid; [| discriminate].
    case_bool_decide as Hfits; [| discriminate].
    intros <-. rewrite bool_decide_true; [done |]. split; [tauto |]. split; [lia | tauto].
  - case_bool_decide as Hvalid; [| discriminate].
    case_bool_decide as Hfits; [| discriminate].
    by intros <-.
  - done.
  - case_bool_decide as Hone; [discriminate |].
    case_bool_decide as Hc; [| discriminate]. done.
Qed.

Section UnetBlock_checks.
#[local] Existing Instance torch_train.

Lemma UnetBlock_train_size (up_in_c x_in_c n h w : Z) :
  2 ≤ up_in_c → 1 ≤ x_in_c → 1 ≤ n → 1 ≤ h → 1 ≤ w →
  UnetBlock_forward (UnetBlock_init up_in_c x_in_c)
    [n; up_in_c; h; w] (Some [n; x_in_c; 2 * h; 2 * w])
  = Ok [n; (x_in_c + up_in_c `div` 2) `div` 2; 2 * h; 2 * w].
Proof.
  intros Hup Hx Hn Hh Hw.
  assert (1 ≤ up_in_c `div` 2) by (apply Z.div_le_lower_bound; lia).
  assert (1 ≤ (x_in_c + up_in_c `div` 2) `div` 2) by (apply Z.div_le_lower_bound; lia).
  unfold UnetBlock_forward, UnetBlock_init.
  cbn [call_layer cat_dim1 torch_train upconv conv1 conv2 bn].
  rewrite train_upconv by lia. cbn [mbind result_bind].
  rewrite torch_cat. cbn [mbind result_bind].
  rewrite (Z.add_comm (up_in_c `div` 2)).
  rewrite train_conv3 by lia. cbn [mbind result_bind fmap result_fmap]. unfold F_relu.
  rewrite train_conv3 by lia. cbn [mbind result_bind fmap result_fmap].
  apply train_bn. nia.
Qed.

(** A block that returns was given a batch of [up_in_c] channels and a
    skip activation of twice its spatial size, and returns that size. *)
Lemma UnetBlock_train_Ok (up_in_c x_in_c : Z) (up_in : tensor) (x_in : option tensor)
    (out : tensor) :
  UnetBlock_forward (UnetBlock_init up_in_c x_in_c) up_in x_in = Ok out →
  ∃ n h w, up_in = [n; up_in_c; h; w]
    ∧ x_in = Some [n; x_in_c; 2 * h; 2 * w]
    ∧ out = [n; (x_in_c + up_in_c `div` 2) `div` 2; 2 * h; 2 * w].
Proof.
  unfold UnetBlock_forward, UnetBlock_init.
  cbn [call_layer cat_dim1 torch_train upconv conv1 conv2 bn].
  intros H.
  apply result_bind_Ok in H as (up_out & Hup & H).
  apply train_upconv_Ok in Hup as (_ & b0 & h & w & Hb0 & -> & ->).
  destruct x_in as [x_in |]; [| discriminate]. cbn [mbind result_bind] in H.
  apply result_bind_Ok in H as (cat_x & Hcat & H).
  apply result_bind_Ok in H as (x1 & H1 & H).
  apply result_fmap_Ok in H1 as (x1' & H1 & ->).
  apply train_conv_Ok in H1 as (_ & b1 & h1 & w1 & Hb1 & -> & _ & _ & ->).
  apply result_bind_Ok in H as (x2 & H2 & H).
  apply result_fmap_Ok in H2 as (x2' & H2 & ->).
  apply train_conv_Ok in H2 as (_ & b2 & h2 & w2 & Hb2 & Hx2 & _ & _ & ->).
  apply train_bn_Ok in H as (n & h3 & w3 & Hbn & _ & ->).
  unfold F_relu in *. rewrite !Z.div_1_r in *.
  destruct b2 as [| n2 [| ? ?]]; [discriminate | | simpl in Hb2; lia].
  cbn [app] in *. injection Hbn as <- <- <-.
  destruct b1 as [| n1 [| ? ?]]; [discriminate | | simpl in Hb1; lia].
  cbn [app] in *. injection Hx2 as <- <- <-.
  apply torch_cat_Ok in Hcat as (n' & c1 & c2 & rest & Hup & -> & Hcat).
  destruct b0 as [| n0 [| ? ?]]; [| | simpl in Hb0; lia]; cbn [app] in *.
  - (* a single image: the concatenation is along the height *)
    injection Hup as <- <- <-. discriminate.
  - injection Hup as <- <- <-. injection Hcat as Hn Hc Hh Hw. subst n1.
    exists n0, h, w. split; [done |]. split; [do 3 f_equal; lia |].
    do 2 f_equal. f_equal; [lia |]. f_equal. lia.
Qed.

(** C4.  A block built for [up_in_c >= 2] and [x_in_c >= 1] channels, given
    a batch of [up_in_c] channels and spatial size [h, w] and a skip
    activation of [x_in_c] channels and spatial size [2h, 2w], returns a
    tensor of [(x_in_c + up_in_c // 2) // 2] channels and spatial size
    [2h, 2w]; whatever the channel counts, whenever a block returns its
    inputs and output have these sizes; for [up_in_c = 512] and
    [x_in_c = 256] the output has 256 channels. *)
Theorem UnetBlock_output_size :
  (∀ up_in_c x_in_c n h w : Z,
     2 ≤ up_in_c → 1 ≤ x_in_c → 1 ≤ n → 1 ≤ h → 1 ≤ w →
     UnetBlock_forward (UnetBlock_init up_in_c x_in_c)
       [n; up_in_c; h; w] (Some [n; x_in_c; 2 * h; 2 * w])
     = Ok [n; (x_in_c + up_in_c `div` 2) `div` 2; 2 * h; 2 * w])
  ∧ (∀ (up_in_c x_in_c : Z) (up_in : tensor) (x_in : option tensor) (out : tensor),
       UnetBlock_forward (UnetBlock_init up_in_c x_in_c) up_in x_in = Ok out →
       ∃ n h w : Z, up_in = [n; up_in_c; h; w]
         ∧ x_in = Some [n; x_in_c; 2 * h; 2 * w]
         ∧ out = [n; (x_in_c + up_in_c `div` 2) `div` 2; 2 * h; 2 * w])
  ∧ (∀ n h w : Z, 1 ≤ n → 1 ≤ h → 1 ≤ w →
       UnetBlock_forward (UnetBlock_init 512 256)
         [n; 512; h; w] (Some [n; 256; 2 * h; 2 * w])
       = Ok [n; 256; 2 * h; 2 * w]).
Proof.
  split; [| split].
  - apply UnetBlock_train_size.
  - apply UnetBlock_train_Ok.
  - intros n h w Hn Hh Hw. by rewrite UnetBlock_train_size by lia.
Qed.

Lemma UnetBlock_output_size_witness :
  UnetBlock_forward (UnetBlock_init 512 256) [10; 512; 4; 4] (Some [10; 256; 8; 8])
  = Ok [10; 256; 8; 8]
  ∧ UnetBlock_forward (UnetBlock_init 65 32) [1; 65; 1; 1] (Some [1; 32; 2; 2])
  = Ok [1; 32; 2; 2]
  ∧ ∃ n h w : Z, [1; 64; 4; 4] = [n; 64; h; w]
      ∧ Some [1; 32; 8; 8] = Some [n; 32; 2 * h; 2 * w]
      ∧ [1; 32; 8; 8] = [n; (32 + 64 `div` 2) `div` 2; 2 * h; 2 * w].
Proof.
  split; [| split].
  - apply (proj2 (proj2 UnetBlock_output_size) 10 4 4); lia.
  - apply (proj1 UnetBlock_output_size 65 32 1 1 1); lia.
  - apply (proj1 (proj2 UnetBlock_output_size) 64 32 [1; 64; 4; 4] (Some [1; 32; 8; 8])).
    reflexivity.
Defined.

(** C10, as the program has it.  For [up_in_c >= 2] and [x_in_c >= 1], odd
    or even, the channel counts inside a block agree under floor
    division: the transposed convolution turns [up_in_c] channels into
    [up_in_c // 2], concatenation with the skip activation gives
    [x_in_c + up_in_c // 2], which is the [in_channels] of the first
    convolution, and [forward] returns [(x_in_c + up_in_c // 2) // 2]
    channels at twice the spatial size.  The bound is sharp: a block built
    for [up_in_c <= 1] has a transposed convolution without output
    channels, and its [forward] never returns. *)
Theorem UnetBlock_channels_consistent :
  (∀ up_in_c x_in_c : Z, 2 ≤ up_in_c → 1 ≤ x_in_c →
     out_channels (upconv (UnetBlock_init up_in_c x_in_c)) = Ok (up_in_c `div` 2)
     ∧ in_channels (conv1 (UnetBlock_init up_in_c x_in_c)) = Ok (x_in_c + up_in_c `div` 2)
     ∧ ∀ n h w : Z, 1 ≤ n → 1 ≤ h → 1 ≤ w →
         call_layer (upconv (UnetBlock_init up_in_c x_in_c)) [n; up_in_c; h; w]
         = Ok [n; up_in_c `div` 2; 2 * h; 2 * w]
         ∧ cat_dim1 [n; up_in_c `div` 2; 2 * h; 2 * w] [n; x_in_c; 2 * h; 2 * w]
           = Ok [n; up_in_c `div` 2 + x_in_c; 2 * h; 2 * w]
         ∧ py_index [n; up_in_c `div` 2 + x_in_c; 2 * h; 2 * w] 1
           = in_channels (conv1 (UnetBlock_init up_in_c x_in_c))
         ∧ call_layer (conv1 (UnetBlock_init up_in_c x_in_c))
             [n; up_in_c `div` 2 + x_in_c; 2 * h; 2 * w]
           = Ok [n; (x_in_c + up_in_c `div` 2) `div` 2; 2 * h; 2 * w]
         ∧ UnetBlock_forward (UnetBlock_init up_in_c x_in_c)
             [n; up_in_c; h; w] (Some [n; x_in_c; 2 * h; 2 * w])
           = Ok [n; (x_in_c + up_in_c `div` 2) `div` 2; 2 * h; 2 * w])
  ∧ (∀ (up_in_c x_in_c : Z) (up_in : tensor) (x_in : option tensor),
       up_in_c ≤ 1 →
       UnetBlock_forward (UnetBlock_init up_in_c x_in_c) up_in x_in = Raise RuntimeError).
Proof.
  split.
  - intros up_in_c x_in_c Hup Hx. split; [done |]. split; [done |].
    intros n h w Hn Hh Hw.
    assert (1 ≤ up_in_c `div` 2) by (apply Z.div_le_lower_bound; lia).
    assert (1 ≤ (x_in_c + up_in_c `div` 2) `div` 2) by (apply Z.div_le_lower_bound; lia).
    cbn [call_layer cat_dim1 torch_train upconv conv1 UnetBlock_init in_channels].
    split; [apply train_upconv; lia |]. split; [apply torch_cat |].
    split; [rewrite py_index_1; f_equal; lia |].
    split; [| by apply UnetBlock_train_size].
    rewrite (Z.add_comm (up_in_c `div` 2)). apply train_conv3; lia.
  - intros up_in_c x_in_c up_in x_in Hup.
    unfold UnetBlock_forward, UnetBlock_init.
    cbn [call_layer torch_train upconv].
    rewrite train_upconv_invalid; [done |].
    intros (_ & Hout & _).
    assert (up_in_c `div` 2 ≤ 0) by (apply Z.lt_succ_r, Z.div_lt_upper_bound; lia).
    lia.
Qed.

(** An odd [up_in_c]: 5 channels in, 2 out of the transposed convolution,
    5 after concatenation with 3 skip channels, 2 out of the block. *)
Lemma UnetBlock_channels_consistent_witness :
  out_channels (upconv (UnetBlock_init 5 3)) = Ok 2
  ∧ in_channels (conv1 (UnetBlock_init 5 3)) = Ok 5
  ∧ UnetBlock_forward (UnetBlock_init 5 3) [1; 5; 4; 4] (Some [1; 3; 8; 8])
    = Ok [1; 2; 8; 8]
  ∧ UnetBlock_forward (UnetBlock_init 1 2) [1; 1; 4; 4] (Some [1; 2; 8; 8])
    = Raise RuntimeError.
Proof.
  destruct UnetBlock_channels_consistent as (Hfits & Hsharp).
  destruct (Hfits 5 3 ltac:(lia) ltac:(lia)) as (H1 & H2 & H3).
  split; [exact H1 |]. split; [exact H2 |].
  destruct (H3 1 4 4 ltac:(lia) ltac:(lia) ltac:(lia)) as (_ & _ & _ & _ & H).
  split; [exact H |]. apply Hsharp. lia.
Defined.

(** C10, as the spec has it, fails at [up_in_c = 1], which is positive
    and odd: the transposed convolution of the block is built with
    [1 // 2 = 0] output channels, and [forward] raises at its first
    line. *)
Lemma UnetBlock_one_channel_raises :
  0 < 1 ∧ 0 < 2
  ∧ out_channels (upconv (UnetBlock_init 1 2)) = Ok 0
  ∧ call_layer (upconv (UnetBlock_init 1 2)) [1; 1; 4; 4] = Raise RuntimeError
  ∧ UnetBlock_forward (UnetBlock_init 1 2) [1; 1; 4; 4] (Some [1; 2; 8; 8])
    = Raise RuntimeError
  ∧ ¬ ∃ out, UnetBlock_forward (UnetBlock_init 1 2) [1; 1; 4; 4] (Some [1; 2; 8; 8])
             = Ok out.
Proof.
  split; [lia |]. split; [lia |]. split; [reflexivity |].
  split; [reflexivity |]. split; [reflexivity |].
  intros [out Hout]. discriminate.
Qed.

End UnetBlock_checks.

(** ** DynamicUnet.forward *)

(** Unfolding the constructs of a method body, and nothing else. *)
Ltac py_simpl :=
  repeat progress
    (unfold mbind, mret, Py_bind, Py_ret, attr, getattr, hasattr, assign, lift in *;
     cbn [negb fst snd
          encoder n_children sfs last n_classes sfs_szs sfs_idxs middle_conv upmodel
          extra_block final_conv set_sfs set_sfs_szs set_sfs_idxs set_middle_conv
          set_upmodel set_extra_block set_final_conv DynamicUnet_init topology] in *).

Lemma Py_bind_Ok {A B} (m : Py A) (f : A → Py B) (s s2 : DynamicUnet) (b : B) :
  (m ≫= f) s = (s2, Ok b) → ∃ a s1, m s = (s1, Ok a) ∧ f a s1 = (s2, Ok b).
Proof.
  unfold mbind, Py_bind. destruct (m s) as [s1 [a | e]]; [by exists a, s1 | discriminate].
Qed.

Lemma attr_Ok {A} (a : DynamicUnet → A) (s s' : DynamicUnet) (v : A) :
  attr a s = (s', Ok v) → s' = s ∧ v = a s.
Proof. unfold attr. by intros [= <- <-]. Qed.

Lemma getattr_Ok {A} (a : DynamicUnet → option A) (s s' : DynamicUnet) (v : A) :
  getattr a s = (s', Ok v) → s' = s ∧ a s = Some v.
Proof. unfold getattr. destruct (a s); [by intros [= <- <-] | discriminate]. Qed.

Lemma lift_Ok {A} (r : result A) (s s' : DynamicUnet) (v : A) :
  lift r s = (s', Ok v) → s' = s ∧ r = Ok v.
Proof. unfold lift. by intros [= <- <-]. Qed.

Lemma set_sfs_id (s : DynamicUnet) : s = set_sfs (sfs s) s.
Proof. by destruct s. Qed.

Section Forward.
Context `{TensorRuntime}.

(** The encoder call assigns recorded activations and nothing else. *)
Lemma encoder_call_frame (children : list stage) (i : nat) (x : tensor) (s : DynamicUnet) :
  ∃ v, (encoder_call children i x s).1 = set_sfs v s.
Proof.
  revert i x s. induction children as [| m children IH]; intros i x s.
  - exists (sfs s). apply set_sfs_id.
  - cbn [encoder_call]. py_simpl. destruct (m x) as [output | e].
    + destruct (IH (S i) output
        (set_sfs (alter (λ sf, hook_fn sf output) i (sfs s)) s)) as [v Hv].
      exists v. exact Hv.
    + exists (sfs s). apply set_sfs_id.
Qed.

(** The decoder loop of a built instance assigns nothing. *)
Lemma run_upsample_frame (pairs : list (UnetBlock * Z)) (x : tensor) (s : DynamicUnet) :
  (run_upsample pairs x s).1 = s.
Proof.
  revert x. induction pairs as [| [block idx] pairs IH]; intros x; [done |].
  cbn [run_upsample]. py_simpl.
  destruct (py_index (sfs s) idx) as [recorder | e]; [| done].
  destruct (UnetBlock_forward block x (features recorder)) as [y | e]; [| done].
  apply IH.
Qed.

(** The construction loop assigns [upmodel] and nothing else; it assigns
    it once per completed iteration, a block longer each time. *)
Lemma build_upmodel_frame (idxs : list Z) (blocks : list UnetBlock) (x : tensor)
    (s : DynamicUnet) :
  (build_upmodel idxs blocks x s).1 = s
  ∨ ∃ bs, (build_upmodel idxs blocks x s).1 = set_upmodel bs s.
Proof.
  revert blocks x s. induction idxs as [| idx idxs IH]; intros blocks x s; [by left |].
  cbn [build_upmodel]. py_simpl.
  destruct (py_index x 1) as [up_in_c | e]; [| by left].
  destruct (sfs_szs s) as [szs |]; [| by left].
  destruct (py_index szs idx) as [sz | e]; [| by left].
  destruct (py_index sz 1) as [x_in_c | e]; [| by left].
  destruct (py_index (sfs s) idx) as [recorder | e]; [| by left].
  destruct (UnetBlock_forward _ x (features recorder)) as [y | e]; [| by left].
  right. match goal with |- context [build_upmodel idxs ?b ?y ?s1] =>
    destruct (IH b y s1) as [-> | [bs ->]] end; eauto.
Qed.

Lemma build_upmodel_Ok (idxs : list Z) (blocks : list UnetBlock) (x y : tensor)
    (s s' : DynamicUnet) :
  build_upmodel idxs blocks x s = (s', Ok y) →
  match idxs with
  | [] => s' = s
  | _ :: _ => ∃ bs, s' = set_upmodel (blocks ++ bs) s ∧ length bs = length idxs
  end.
Proof.
  revert blocks x s. induction idxs as [| idx idxs IH]; intros blocks x s.
  - by intros [= <- _].
  - cbn [build_upmodel]. py_simpl.
    destruct (py_index x 1) as [up_in_c | e]; [| discriminate].
    destruct (sfs_szs s) as [szs |] eqn:Hszs; [| discriminate].
    destruct (py_index szs idx) as [sz | e]; [| discriminate].
    destruct (py_index sz 1) as [x_in_c | e]; [| discriminate].
    destruct (py_index (sfs s) idx) as [recorder | e]; [| discriminate].
    destruct (UnetBlock_forward _ x (features recorder)) as [x' | e]; [| discriminate].
    intros Hrec. apply IH in Hrec. destruct idxs as [| idx' idxs].
    + exists [UnetBlock_init up_in_c x_in_c]. by subst s'.
    + destruct Hrec as (bs & -> & Hlen).
      exists (UnetBlock_init up_in_c x_in_c :: bs). rewrite <- app_assoc.
      split; [reflexivity | simpl; by rewrite Hlen].
Qed.

(** On an instance that has [middle_conv] and [upmodel], [forward]
    assigns recorded activations and nothing else. *)
Lemma forward_built_frame (x : tensor) (s : DynamicUnet) :
  is_Some (middle_conv s) → is_Some (upmodel s) →
  ∃ v, (DynamicUnet_forward x s).1 = set_sfs v s.
Proof.
  intros [layers Hmc] [blocks Hup]. unfold DynamicUnet_forward. py_simpl.
  destruct (encoder_call (encoder s) 0 x s) as [s1 [x1 | e]] eqn:Henc;
    destruct (encoder_call_frame (encoder s) 0 x s) as [v Hv];
    rewrite Henc in Hv; cbn [fst] in Hv; subst s1; [| by (eexists; reflexivity)].
  repeat progress (py_simpl; rewrite ?Hmc, ?Hup).
  destruct (Sequential_call layers (F_relu x1)) as [x2 | e]; [| by (eexists; reflexivity)].
  repeat progress (py_simpl; rewrite ?Hmc, ?Hup).
  destruct (sfs_idxs s) as [idxs |]; [| by (eexists; reflexivity)].
  py_simpl.
  match goal with |- context [run_upsample ?p ?y ?s1] =>
    pose proof (run_upsample_frame p y s1) as Hrun;
    destruct (run_upsample p y s1) as [s2 [x3 | e]] end;
    cbn [fst] in Hrun; subst s2; [| by (eexists; reflexivity)].
  py_simpl.
  destruct (extra_block s) as [layer |]; py_simpl.
  - destruct (call_layer layer x3) as [x4 | e]; [| by (eexists; reflexivity)].
    destruct (final_conv s) as [final |]; [| by (eexists; reflexivity)].
    py_simpl. destruct (call_layer final x4); by (eexists; reflexivity).
  - destruct (final_conv s) as [final |]; [| by (eexists; reflexivity)].
    py_simpl. destruct (call_layer final x3); by (eexists; reflexivity).
Qed.

(** The outcomes of the first call of [forward] on a new instance:
    either nothing of the decoder was assigned; or the bottleneck was, and
    then either the construction stopped before the final convolution or
    the whole topology was assigned. *)
Lemma first_forward_cases (enc : list stage) (l : bool) (nc : Z) (x : tensor)
    (m1 : DynamicUnet) (r : result tensor) :
  DynamicUnet_forward x (DynamicUnet_init enc l nc) = (m1, r) →
  (middle_conv m1 = None ∧ upmodel m1 = None ∧ extra_block m1 = None
   ∧ final_conv m1 = None ∧ is_Ok r = false)
  ∨ ∃ szs idxs sz c,
      mapM features_size (sfs m1) = Ok szs
      ∧ get_sfs_idxs (sfs m1) l = Ok idxs
      ∧ sfs_szs m1 = Some szs ∧ sfs_idxs m1 = Some idxs
      ∧ py_index szs (-1) = Ok sz ∧ py_index sz 1 = Ok c
      ∧ middle_conv m1
        = Some (conv_bn_relu c (c * 2) 3 1 1 ++ conv_bn_relu (c * 2) c 3 1 1)
      ∧ ((final_conv m1 = None ∧ is_Ok r = false
          ∧ (idxs = [] → upmodel m1 = None ∧ extra_block m1 = None))
         ∨ ∃ blocks block c' sz0,
             upmodel m1 = Some blocks ∧ length blocks = length idxs ∧ idxs ≠ []
             ∧ py_index blocks (-1) = Ok block
             ∧ out_channels (conv2 block) = Ok c'
             ∧ py_index szs 0 = Ok sz0
             ∧ extra_block m1
               = (if bool_decide (py_slice_from x (-2) ≠ py_slice_from sz0 (-2))
                  then Some (ConvTranspose2d c' c' 2 2) else None)
             ∧ final_conv m1 = Some (Conv2d c' nc 1 1 0)).
Proof.
  unfold DynamicUnet_forward. py_simpl.
  match goal with |- context [encoder_call enc 0 x ?s] => set (s0 := s) end.
  destruct (encoder_call enc 0 x s0) as [s1 [x1 | e]] eqn:Henc;
    destruct (encoder_call_frame enc 0 x s0) as [v Hv];
    rewrite Henc in Hv; cbn [fst] in Hv; subst s1 s0;
    [| intros [<- <-]%pair_equal_spec; left; by repeat split].
  unfold init_middle_conv. py_simpl.
  destruct (mapM features_size v) as [szs | e] eqn:Hszs;
    [| intros [<- <-]%pair_equal_spec; left; by repeat split].
  py_simpl.
  destruct (get_sfs_idxs v l) as [idxs | e] eqn:Hidxs;
    [| intros [<- <-]%pair_equal_spec; left; by repeat split].
  py_simpl.
  destruct (py_index szs (-1)) as [sz | e] eqn:Hsz;
    [| intros [<- <-]%pair_equal_spec; left; by repeat split].
  py_simpl.
  destruct (py_index sz 1) as [c | e] eqn:Hc;
    [| intros [<- <-]%pair_equal_spec; left; by repeat split].
  py_simpl. intros Hrun. right. exists szs, idxs, sz, c.
  destruct (Sequential_call _ (F_relu x1)) as [x2 | e].
  2: { apply pair_equal_spec in Hrun as [<- <-]. repeat split; try done.
       left. by repeat split. }
  unfold init_upmodel in Hrun. py_simpl.
  match type of Hrun with context [build_upmodel ?i ?b ?y ?s] =>
    pose proof (build_upmodel_frame i b y s) as Hframe;
    pose proof (build_upmodel_Ok i b y) as Hbuilt;
    destruct (build_upmodel i b y s) as [s3 [x3 | e]] eqn:Hbuild end.
  2: { apply pair_equal_spec in Hrun as [<- <-]. cbn [fst] in Hframe.
       assert (idxs ≠ []) as Hne by (intros ->; discriminate).
       destruct Hframe as [-> | [bs ->]]; (do 7 (split; [done |])); left; done. }
  clear Hframe. specialize (Hbuilt _ _ _ Hbuild).
  assert (∃ s2, s2 = set_middle_conv
       (conv_bn_relu c (c * 2) 3 1 1 ++ conv_bn_relu (c * 2) c 3 1 1)
       (set_sfs_idxs idxs
          (set_sfs_szs szs (set_sfs v (DynamicUnet_init enc l nc)))))
    as [s2 Hs2] by eauto.
  rewrite <- Hs2 in *. clear Hbuild.
  destruct (py_reversed idxs) as [| idx ridxs] eqn:Hrev.
  - (* no skip index: the loop body never ran *)
    apply (f_equal reverse) in Hrev. unfold py_reversed in Hrev.
    rewrite reverse_involutive in Hrev. cbn in Hrev. subst idxs s3 s2. py_simpl.
    destruct (py_index szs 0) as [sz0 | e].
    + destruct (bool_decide _); py_simpl;
        apply pair_equal_spec in Hrun as [<- <-];
        (do 7 (split; [done |])); left; done.
    + apply pair_equal_spec in Hrun as [<- <-].
      (do 7 (split; [done |])); left; done.
  - assert (idxs ≠ []) as Hne by (intros ->; discriminate).
    destruct Hbuilt as (bs & -> & Hlen). subst s2. py_simpl.
    apply (f_equal length) in Hrev. unfold py_reversed in Hrev.
    rewrite length_reverse in Hrev. rewrite <- Hrev in Hlen. clear Hrev.
    rewrite app_nil_l in Hrun.
    destruct (py_index szs 0) as [sz0 | e] eqn:Hsz0.
    2: { apply pair_equal_spec in Hrun as [<- <-].
         (do 7 (split; [done |])); left; done. }
    destruct (py_index bs (-1)) as [block | e] eqn:Hblock.
    2: { destruct (bool_decide _); py_simpl; rewrite ?Hblock in Hrun;
           apply pair_equal_spec in Hrun as [<- <-];
           (do 7 (split; [done |])); left; done. }
    destruct (out_channels (conv2 block)) as [c' | e] eqn:Hc'.
    2: { destruct (bool_decide _); py_simpl; rewrite ?Hblock, ?Hc' in Hrun;
           apply pair_equal_spec in Hrun as [<- <-];
           (do 7 (split; [done |])); left; done. }
    assert (∃ m, m1 = m ∧ m = set_final_conv (Conv2d c' nc 1 1 0)
      ((if bool_decide (py_slice_from x (-2) ≠ py_slice_from sz0 (-2))
        then set_extra_block (ConvTranspose2d c' c' 2 2) else id)
         (set_upmodel bs
           (set_middle_conv
             (conv_bn_relu c (c * 2) 3 1 1 ++ conv_bn_relu (c * 2) c 3 1 1)
             (set_sfs_idxs idxs
               (set_sfs_szs szs (set_sfs v (DynamicUnet_init enc l nc))))))))
      as (m & Hm1 & Hm).
    { eexists; split; [| reflexivity].
      destruct (bool_decide _);
        repeat progress (py_simpl; rewrite ?Hblock, ?Hc' in Hrun);
        repeat match type of Hrun with
        | context [run_upsample ?p ?y ?s] =>
            let Hf := fresh in
            pose proof (run_upsample_frame p y s) as Hf;
            destruct (run_upsample p y s) as [s' [? | ?]];
            cbn [fst] in Hf; subst s'; py_simpl
        | context [call_layer ?la ?y] => destruct (call_layer la y); py_simpl
        end;
        by apply pair_equal_spec in Hrun as [<- _]. }
    clear Hrun. subst m1 m.
    do 7 (split; [first [done | by destruct (bool_decide _)] |]).
    right. exists bs, block, c', sz0.
    destruct (bool_decide _); by repeat split.
Qed.

(** A call of [forward] that returns has run the decoder loop over
    [upmodel], then the extra block if the instance has one, then the
    final convolution. *)
Lemma forward_Ok_tail (x : tensor) (s s' : DynamicUnet) (out : tensor) :
  DynamicUnet_forward x s = (s', Ok out) →
  ∃ (blocks : list UnetBlock) (idxs : list Z) (x2 y : tensor) (final : layer),
    upmodel s' = Some blocks ∧ sfs_idxs s' = Some idxs
    ∧ run_upsample (zip blocks (py_reversed idxs)) x2 s' = (s', Ok y)
    ∧ final_conv s' = Some final
    ∧ match extra_block s' with
      | Some extra => ∃ y', call_layer extra y = Ok y' ∧ sigmoid <$> call_layer final y' = Ok out
      | None => sigmoid <$> call_layer final y = Ok out
      end.
Proof.
  unfold DynamicUnet_forward. intros Hrun.
  apply Py_bind_Ok in Hrun as (children & s1 & _ & Hrun).
  apply Py_bind_Ok in Hrun as (x1 & s2 & _ & Hrun).
  apply Py_bind_Ok in Hrun as (built & s3 & _ & Hrun).
  apply Py_bind_Ok in Hrun as ([] & s4 & _ & Hrun).
  apply Py_bind_Ok in Hrun as (layers & s5 & _ & Hrun).
  apply Py_bind_Ok in Hrun as (x2 & s6 & _ & Hrun).
  apply Py_bind_Ok in Hrun as (built' & s7 & _ & Hrun).
  apply Py_bind_Ok in Hrun as ([] & s8 & _ & Hrun).
  apply Py_bind_Ok in Hrun as (blocks & s9 & [-> Hblocks]%getattr_Ok & Hrun).
  apply Py_bind_Ok in Hrun as (idxs & s10 & [-> Hidxs]%getattr_Ok & Hrun).
  apply Py_bind_Ok in Hrun as (y & s11 & Hloop & Hrun).
  pose proof (run_upsample_frame (zip blocks (py_reversed idxs)) x2 s8) as Hframe.
  rewrite Hloop in Hframe. cbn [fst] in Hframe. subst s11.
  apply Py_bind_Ok in Hrun as (extra & s12 & [-> ->]%attr_Ok & Hrun).
  apply Py_bind_Ok in Hrun as (y' & s13 & Hextra & Hrun).
  apply Py_bind_Ok in Hrun as (final & s14 & [-> Hfinal]%getattr_Ok & Hrun).
  apply Py_bind_Ok in Hrun as (out' & s15 & [-> Hout]%lift_Ok & Hrun).
  assert (s13 = s8 ∧ match extra_block s8 with
                     | Some extra => call_layer extra y = Ok y'
                     | None => y' = y
                     end) as [-> Hy'].
  { destruct (extra_block s8).
    - by apply lift_Ok in Hextra as [-> ->].
    - by injection Hextra as <- <-. }
  injection Hrun as <- <-.
  exists blocks, idxs, x2, y, final. do 4 (split; [done |]).
  destruct (extra_block s8).
  - exists y'. by rewrite Hout.
  - subst y'. by rewrite Hout.
Qed.

(** On a built instance the topology survives any sequence of calls. *)
Lemma forward_calls_built (xs : list tensor) (s : DynamicUnet) :
  is_Some (middle_conv s) → is_Some (upmodel s) →
  topology (forward_calls xs s) = topology s.
Proof.
  revert s. induction xs as [| x xs IH]; intros s Hmc Hup; [done |].
  destruct (forward_built_frame x s Hmc Hup) as [v Hv].
  unfold forward_calls in *. cbn [foldl]. rewrite Hv.
  rewrite IH by done. reflexivity.
Qed.

(** *** The first call on a new instance *)

Section First_call.
Variables (enc : list stage) (l : bool) (nc : Z) (x : tensor).

#[local] Abbreviation call := (first_call enc l nc x).

(** C7.  The bottleneck that the first call of [forward] assigns to
    [middle_conv] is made of two (convolution, ReLU, batch normalization)
    stages, of kernel 3, stride 1 and padding 1, the first from [c] to
    [2c] channels and the second from [2c] back to [c], where [c] is the
    channel count of the last recorded activation; a first call that
    returns has assigned it. *)
Theorem bottleneck_channels :
  middle_conv (DynamicUnet_init enc l nc) = None
  ∧ (is_Ok call.2 = true → is_Some (middle_conv call.1))
  ∧ ∀ layers : list layer,
      middle_conv call.1 = Some layers →
      ∃ (recorder : SaveFeatures) (sz : tensor) (c : Z),
        py_index (sfs call.1) (-1) = Ok recorder
        ∧ features recorder = Some sz
        ∧ py_index sz 1 = Ok c
        ∧ layers = [Conv2d c (c * 2) 3 1 1; ReLU; BatchNorm2d (c * 2);
                    Conv2d (c * 2) c 3 1 1; ReLU; BatchNorm2d c].
Proof.
  split; [done |].
  destruct (first_forward_cases enc l nc x call.1 call.2) as
    [(Hmc & _ & _ & _ & Hr)
    | (szs & idxs & sz & c & Hszs & _ & _ & _ & Hsz & Hc & Hmc & _)];
    [apply surjective_pairing | |].
  - split; [by rewrite Hr | by rewrite Hmc].
  - split; [by rewrite Hmc |]. intros layers Hlayers.
    destruct (recorded_index _ _ _ _ Hszs Hsz) as (recorder & Hrec & Hfeat).
    exists recorder, sz, c. do 3 (split; [done |]).
    rewrite Hmc in Hlayers. by injection Hlayers as <-.
Qed.

(** C3.  A new instance has none of the topology attributes.  A first
    call of [forward] that returns has assigned [sfs_idxs], [sfs_szs],
    [middle_conv], [upmodel] and [final_conv] ([extra_block] being
    optional), and no later call, whatever its input and whether it
    returns or raises, changes any of the six: the decoder blocks of the
    second call are those cached by the first.  More generally, calls on
    any instance that has [middle_conv] and [upmodel] construct nothing. *)
Theorem topology_assigned_once :
  topology (DynamicUnet_init enc l nc) = (None, None, None, None, None, None)
  ∧ (is_Ok call.2 = true →
     (is_Some (sfs_idxs call.1) ∧ is_Some (sfs_szs call.1)
      ∧ is_Some (middle_conv call.1) ∧ is_Some (upmodel call.1)
      ∧ is_Some (final_conv call.1))
     ∧ (∀ x' : tensor,
          upmodel (DynamicUnet_forward x' call.1).1 = upmodel call.1
          ∧ topology (DynamicUnet_forward x' call.1).1 = topology call.1)
     ∧ (∀ xs : list tensor,
          topology (forward_calls xs call.1)
          = topology call.1))
  ∧ (∀ (s : DynamicUnet) (xs : list tensor),
       is_Some (middle_conv s) → is_Some (upmodel s) →
       topology (forward_calls xs s) = topology s).
Proof.
  split; [done |].
  split; [| intros s xs; apply forward_calls_built]. intros Hok.
  destruct (first_forward_cases enc l nc x call.1 call.2) as
    [(_ & _ & _ & _ & Hr)
    | (szs & idxs & sz & c & _ & _ & Hszs & Hidxs & _ & _ & Hmc &
       [(_ & Hr & _) | (blocks & block & c' & sz0 & Hup & _ & _ & _ & _ & _ & _ & Hfin)])];
    [apply surjective_pairing | congruence | congruence |].
  assert (is_Some (middle_conv call.1)) as Hmc' by (by rewrite Hmc).
  assert (is_Some (upmodel call.1)) as Hup' by (by rewrite Hup).
  split; [| split].
  - rewrite Hidxs, Hszs, Hfin. by repeat split.
  - intros x'. pose proof (forward_calls_built [x'] call.1 Hmc' Hup') as Hone.
    unfold forward_calls in Hone. cbn [foldl] in Hone. split; [| done].
    unfold topology in Hone. congruence.
  - intros xs. by apply forward_calls_built.
Qed.

(** C5.  In a first call of [forward] that returns, [extra_block] is
    assigned exactly when the last two sizes of the input differ from
    those of the first recorded activation; it is then a transposed
    convolution of kernel 2 and stride 2 with as many output as input
    channels, the output channels of the last decoder block, and on the
    size rules of [torch] it doubles both spatial sizes.  Every call of
    [forward] that returns has passed the output of the decoder loop
    through [extra_block] if the instance has one, and directly to the
    final convolution if it has none. *)
Theorem extra_block_iff_size_gap :
  extra_block (DynamicUnet_init enc l nc) = None
  ∧ (is_Ok call.2 = true →
     ∃ (recorder : SaveFeatures) (sz0 : tensor) (blocks : list UnetBlock)
       (block : UnetBlock) (c : Z),
       py_index (sfs call.1) 0 = Ok recorder
       ∧ features recorder = Some sz0
       ∧ upmodel call.1 = Some blocks
       ∧ py_index blocks (-1) = Ok block
       ∧ out_channels (conv2 block) = Ok c
       ∧ (is_Some (extra_block call.1)
          ↔ py_slice_from x (-2) ≠ py_slice_from sz0 (-2))
       ∧ (∀ extra : layer,
            extra_block call.1 = Some extra →
            extra = ConvTranspose2d c c 2 2
            ∧ in_channels extra = out_channels extra
            ∧ ∀ n h w : Z,
                @call_layer torch extra [n; c; h; w] = Ok [n; c; 2 * h; 2 * w]))
  ∧ (∀ (s : DynamicUnet) (x' out : tensor),
       (DynamicUnet_forward x' s).2 = Ok out →
       ∃ (blocks : list UnetBlock) (idxs : list Z) (x2 y : tensor) (final : layer),
         upmodel (DynamicUnet_forward x' s).1 = Some blocks
         ∧ sfs_idxs (DynamicUnet_forward x' s).1 = Some idxs
         ∧ run_upsample (zip blocks (py_reversed idxs)) x2 (DynamicUnet_forward x' s).1
           = ((DynamicUnet_forward x' s).1, Ok y)
         ∧ final_conv (DynamicUnet_forward x' s).1 = Some final
         ∧ match extra_block (DynamicUnet_forward x' s).1 with
           | Some extra =>
               ∃ y', call_layer extra y = Ok y'
                     ∧ sigmoid <$> call_layer final y' = Ok out
           | None => sigmoid <$> call_layer final y = Ok out
           end).
Proof.
  split; [done |]. split.
  - intros Hok.
    destruct (first_forward_cases enc l nc x call.1 call.2) as
      [(_ & _ & _ & _ & Hr)
      | (szs & idxs & sz & c & Hszs & _ & _ & _ & _ & _ & _ &
         [(_ & Hr & _)
         | (blocks & block & c' & sz0 & Hup & _ & _ & Hblock & Hc' & Hsz0 & Hextra & _)])];
      [apply surjective_pairing | congruence | congruence |].
    destruct (recorded_index _ _ _ _ Hszs Hsz0) as (recorder & Hrec & Hfeat).
    exists recorder, sz0, blocks, block, c'. do 5 (split; [done |]).
    rewrite Hextra. split.
    + case_bool_decide; split; done.
    + intros extra. case_bool_decide; [| discriminate].
      intros [= <-]. split; [done |]. split; [done |].
      intros n h w. apply torch_upconv.
  - intros s x' out Hout. apply (forward_Ok_tail x' s).
    rewrite <- Hout. apply surjective_pairing.
Qed.

End First_call.

End Forward.

(** ** Concrete runs, with the size rules of [torch] *)

(** The first call on the ResNet-like encoder with a 32x32 input. *)
Lemma bottleneck_channels_witness :
  is_Some (middle_conv resnet_like_run.1)
  ∧ ∃ (recorder : SaveFeatures) (sz : tensor) (c : Z),
      py_index (sfs resnet_like_run.1) (-1) = Ok recorder
      ∧ features recorder = Some sz
      ∧ py_index sz 1 = Ok c
      ∧ [Conv2d 64 128 3 1 1; ReLU; BatchNorm2d 128;
         Conv2d 128 64 3 1 1; ReLU; BatchNorm2d 64]
        = [Conv2d c (c * 2) 3 1 1; ReLU; BatchNorm2d (c * 2);
           Conv2d (c * 2) c 3 1 1; ReLU; BatchNorm2d c].
Proof.
  destruct (@bottleneck_channels torch resnet_like true 1 [1; 3; 32; 32])
    as (_ & Hbuilt & Hlayers).
  split.
  - apply Hbuilt. vm_compute. reflexivity.
  - apply Hlayers. vm_compute. reflexivity.
Defined.

(** Three calls on one instance: the topology of the first call stays. *)
Lemma topology_assigned_once_witness :
  (is_Some (sfs_idxs resnet_like_run.1) ∧ is_Some (sfs_szs resnet_like_run.1)
   ∧ is_Some (middle_conv resnet_like_run.1) ∧ is_Some (upmodel resnet_like_run.1)
   ∧ is_Some (final_conv resnet_like_run.1))
  ∧ upmodel (@DynamicUnet_forward torch [10; 3; 32; 32] resnet_like_run.1).1
    = upmodel resnet_like_run.1
  ∧ topology (@forward_calls torch [[10; 3; 32; 32]; [2; 3; 64; 64]] resnet_like_run.1)
    = topology resnet_like_run.1.
Proof.
  destruct (@topology_assigned_once torch resnet_like true 1 [1; 3; 32; 32])
    as (_ & Hfirst & _).
  destruct Hfirst as (Hassigned & Hnext & Hall); [vm_compute; reflexivity |].
  split; [exact Hassigned |]. split; [apply Hnext | apply Hall].
Defined.

(** The ResNet-like encoder halves the input before the first recorded
    activation, so the extra block is built. *)
Lemma extra_block_iff_size_gap_witness :
  py_slice_from [1; 3; 32; 32] (-2) ≠ py_slice_from [1; 8; 16; 16] (-2)
  ∧ extra_block resnet_like_run.1 = Some (ConvTranspose2d 8 8 2 2)
  ∧ @call_layer torch (ConvTranspose2d 8 8 2 2) [1; 8; 16; 16] = Ok [1; 8; 32; 32].
Proof.
  destruct (@extra_block_iff_size_gap torch resnet_like true 1 [1; 3; 32; 32])
    as (_ & Hfirst & _).
  destruct Hfirst as (recorder & sz0 & blocks & block & c & Hrec & Hfeat & Hup
                      & Hblock & Hc & Hiff & Hextra); [vm_compute; reflexivity |].
  assert (sz0 = [1; 8; 16; 16]) as ->.
  { vm_compute in Hrec. injection Hrec as <-. vm_compute in Hfeat. congruence. }
  assert (is_Some (extra_block resnet_like_run.1)) as [extra Hsome]
    by (vm_compute; eauto).
  split; [apply (proj1 Hiff); exists extra; exact Hsome |].
  destruct (Hextra extra Hsome) as (-> & _ & Hdouble).
  assert (c = 8) as -> by (vm_compute in Hsome; congruence).
  split; [exact Hsome | apply (Hdouble 1 16 16)].
Defined.

(** C2, as the spec has it, fails on the encoder of constant resolution:
    the selection is empty and the first call raises [AttributeError],
    reading [self.upmodel], which the loop never assigned. *)
Lemma empty_selection_forward_raises :
  sfs_idxs constant_resolution_run.1 = Some []
  ∧ constant_resolution_run.2 = Raise AttributeError
  ∧ (¬ ∃ out, constant_resolution_run.2 = Ok out)
  ∧ upmodel constant_resolution_run.1 = None
  ∧ final_conv constant_resolution_run.1 = None.
Proof.
  vm_compute. repeat split; try reflexivity. intros [out Hout]. discriminate.
Qed.

(** The duplicated index of [get_sfs_idxs] at work: on an encoder whose
    recorded sizes are 32, 16, 8, 4, the selection is [[0; 0; 1; 2]], and
    the fourth decoder block is asked to concatenate a 64x64 tensor with
    the 32x32 activation of child 0. *)
Lemma halving_encoder_first_call :
  sfs_idxs halving_run.1 = Some [0; 0; 1; 2]
  ∧ halving_run.2 = Raise RuntimeError
  ∧ final_conv halving_run.1 = None.
Proof. vm_compute. by repeat split. Qed.

(** * Further properties *)

(** ** get_sfs_idxs on any recorded activations *)

Lemma mapM_result_length {A B} (f : A → result B) (l : list A) (k : list B) :
  mapM f l = Ok k → length k = length l.
Proof.
  revert k. induction l as [| x l IH]; intros k.
  - by intros [= <-].
  - rewrite mapM_result_cons. destruct (f x) as [y | e]; [| discriminate].
    cbn [mbind result_bind]. destruct (mapM f l) as [k' | e]; [| discriminate].
    intros [= <-]. simpl. by rewrite (IH k').
Qed.

(** The trailing sizes [ws] of recorders: recorder [i] holds an
    activation whose last size is [ws !! i]. *)
Lemma feature_szs_trailing (sfs : list SaveFeatures) (ws : list Z) :
  Forall2 (λ sf w, ∃ pre, features sf = Some (pre ++ [w])) sfs ws →
  mapM (λ sfs_feats, sz ← features_size sfs_feats; py_index sz (-1)) sfs = Ok ws.
Proof.
  induction 1 as [| sf w sfs ws [pre Hsf] _ IH]; [done |].
  rewrite mapM_result_cons, IH. unfold features_size. rewrite Hsf.
  cbn [mbind result_bind]. by rewrite py_index_last.
Qed.

Lemma py_slice_to_minus_1 {A} (l : list A) :
  py_slice_to l (-1) = take (length l - 1)%nat l.
Proof.
  unfold py_slice_to, py_clip. f_equal.
  replace (-1 <? 0) with true by reflexivity. lia.
Qed.

Lemma py_slice_from_1 {A} (l : list A) : py_slice_from l 1 = drop 1 l.
Proof.
  unfold py_slice_from, py_clip. replace (1 <? 0) with false by reflexivity.
  destruct l as [| a l]; [done |]. f_equal. simpl length. lia.
Qed.

Lemma np_where_ne_elem (i : Z) (a b : list Z) (k : Z) :
  k ∈ np_where_ne i a b
  ↔ ∃ (j : nat) (x y : Z),
      k = i + Z.of_nat j ∧ a !! j = Some x ∧ b !! j = Some y ∧ x ≠ y.
Proof.
  revert i b. induction a as [| x a IH]; intros i b.
  - simpl. split; [by intros ?%elem_of_nil | by intros (j & ? & ? & _ & [=] & _)].
  - destruct b as [| y b].
    + simpl. split; [by intros ?%elem_of_nil | by intros (j & ? & ? & _ & _ & [=] & _)].
    + cbn [np_where_ne]. case_bool_decide as Hxy.
      * rewrite elem_of_cons, IH. split.
        -- intros [-> | (j & x' & y' & -> & Ha & Hb & Hne)].
           ++ exists 0%nat, x, y. repeat split; [lia | done].
           ++ exists (S j), x', y'. repeat split; [lia | done ..].
        -- intros ([| j] & x' & y' & -> & Ha & Hb & Hne).
           ++ left. lia.
           ++ right. exists j, x', y'. repeat split; [lia | done ..].
      * rewrite IH. split.
        -- intros (j & x' & y' & -> & Ha & Hb & Hne).
           exists (S j), x', y'. repeat split; [lia | done ..].
        -- intros ([| j] & x' & y' & -> & Ha & Hb & Hne).
           ++ simpl in Ha, Hb. congruence.
           ++ exists j, x', y'. repeat split; [lia | done ..].
Qed.

Lemma np_where_ne_sorted (i : Z) (a b : list Z) :
  StronglySorted Z.lt (np_where_ne i a b) ∧ Forall (λ k, i ≤ k) (np_where_ne i a b).
Proof.
  revert i b. induction a as [| x a IH]; intros i b; [by split; constructor |].
  destruct b as [| y b]; [by split; constructor |].
  cbn [np_where_ne]. destruct (IH (i + 1) b) as [Hs Hge].
  assert (Forall (λ k, i < k) (np_where_ne (i + 1) a b)) as Hgt
    by (eapply Forall_impl; [exact Hge | simpl; lia]).
  case_bool_decide.
  - split.
    + by constructor.
    + constructor; [lia |]. eapply Forall_impl; [exact Hgt | simpl; lia].
  - split; [done |]. eapply Forall_impl; [exact Hgt | simpl; lia].
Qed.

(** What [get_sfs_idxs] computes from at least two trailing sizes. *)
Lemma get_sfs_idxs_trailing (sfs : list SaveFeatures) (a b : Z) (ws : list Z) :
  Forall2 (λ sf w, ∃ pre, features sf = Some (pre ++ [w])) sfs (a :: b :: ws) →
  get_sfs_idxs sfs true
  = Ok ((if bool_decide (a ≠ b) then [0] else [])
        ++ np_where_ne 0 (take (S (length ws)) (a :: b :: ws)) (b :: ws)).
Proof.
  intros Hws. unfold get_sfs_idxs. rewrite (feature_szs_trailing _ _ Hws).
  cbn [mbind result_bind]. rewrite py_index_0, py_index_1.
  rewrite py_slice_to_minus_1, py_slice_from_1.
  cbn [mbind result_bind length drop].
  replace (S (S (length ws)) - 1)%nat with (S (length ws)) by lia.
  by case_bool_decide.
Qed.

(** Membership in the list computed from the trailing sizes. *)
Lemma get_sfs_idxs_trailing_elem (sfs : list SaveFeatures) (ws : list Z) :
  Forall2 (λ sf w, ∃ pre, features sf = Some (pre ++ [w])) sfs ws →
  (2 ≤ length ws)%nat →
  ∃ idxs : list Z,
    get_sfs_idxs sfs true = Ok idxs
    ∧ ∀ k : Z, k ∈ idxs
        ↔ ∃ (j : nat) (x y : Z),
            k = Z.of_nat j ∧ ws !! j = Some x ∧ ws !! S j = Some y ∧ x ≠ y.
Proof.
  intros Hws Hlen. destruct ws as [| a [| b ws]]; [simpl in Hlen; lia ..|].
  eexists. split; [by apply get_sfs_idxs_trailing |]. intros k.
  rewrite elem_of_app, np_where_ne_elem. split.
  - intros [Hk | (j & x & y & -> & Ha & Hb & Hne)].
    + case_bool_decide; [| by apply elem_of_nil in Hk].
      apply list_elem_of_singleton in Hk as ->. by exists 0%nat, a, b.
    + apply lookup_take_Some in Ha as [Ha _]. exists j, x, y. by repeat split.
  - intros (j & x & y & -> & Ha & Hb & Hne). right. exists j, x, y.
    split; [lia |]. split; [| done].
    apply lookup_take_Some. split; [done |].
    apply lookup_lt_Some in Hb. simpl in Hb. lia.
Qed.

(** X1.  On recorded activations, at least two of them, [get_sfs_idxs]
    with [last = true] returns a list whose members are exactly the
    positions [j] at which the trailing size differs from that of the next
    activation. *)
Theorem get_sfs_idxs_elem (sfs : list SaveFeatures) (ws : list Z) :
  Forall2 (λ sf w, ∃ pre, features sf = Some (pre ++ [w])) sfs ws →
  (2 ≤ length ws)%nat →
  ∃ idxs : list Z,
    get_sfs_idxs sfs true = Ok idxs
    ∧ ∀ k : Z, k ∈ idxs
        ↔ ∃ (j : nat) (x y : Z),
            k = Z.of_nat j ∧ ws !! j = Some x ∧ ws !! S j = Some y ∧ x ≠ y.
Proof. apply get_sfs_idxs_trailing_elem. Qed.

Lemma get_sfs_idxs_elem_witness :
  ∃ idxs : list Z,
    get_sfs_idxs (recorded <$> [[1; 8; 16; 16]; [1; 8; 16; 16]; [1; 16; 8; 8]]) true = Ok idxs
    ∧ ∀ k : Z, k ∈ idxs
        ↔ ∃ (j : nat) (x y : Z),
            k = Z.of_nat j ∧ [16; 16; 8] !! j = Some x ∧ [16; 16; 8] !! S j = Some y
            ∧ x ≠ y.
Proof.
  apply (get_sfs_idxs_elem _ [16; 16; 8]).
  - repeat constructor; by eexists [_; _; _].
  - simpl. lia.
Defined.

Lemma py_index_Ok_bound {A} (l : list A) (i : Z) (a : A) :
  py_index l i = Ok a → - Z.of_nat (length l) ≤ i < Z.of_nat (length l).
Proof.
  unfold py_index. cbv zeta.
  destruct (i <? 0) eqn:Hi;
    [apply Z.ltb_lt in Hi | apply Z.ltb_ge in Hi];
    (destruct (_ || _) eqn:Hb; [discriminate |]);
    apply orb_false_iff in Hb as [?%Z.ltb_ge ?%Z.leb_gt]; lia.
Qed.

Lemma py_index_in_range {A} (l : list A) (i : Z) :
  0 ≤ i < Z.of_nat (length l) → ∃ a, py_index l i = Ok a.
Proof.
  intros Hi. rewrite <- (Z2Nat.id i) by lia. rewrite py_index_nat.
  destruct (lookup_lt_is_Some_2 l (Z.to_nat i)) as [a ->]; [lia | by exists a].
Qed.

Lemma py_range_sorted (i n : nat) : StronglySorted Z.lt (Z.of_nat <$> seq i n).
Proof.
  revert i. induction n as [| n IH]; intros i; [constructor |].
  cbn [seq fmap list_fmap]. constructor; [apply IH |].
  apply Forall_fmap, Forall_forall. intros j [Hj _]%elem_of_seq. simpl. lia.
Qed.

Lemma StronglySorted_lt_le (l : list Z) : StronglySorted Z.lt l → StronglySorted Z.le l.
Proof.
  induction 1 as [| k l _ IH Hall]; constructor; [done |].
  eapply Forall_impl; [exact Hall | simpl; lia].
Qed.

Lemma StronglySorted_lt_NoDup (l : list Z) : StronglySorted Z.lt l → NoDup l.
Proof.
  induction 1 as [| k l _ IH Hall]; constructor; [| done].
  intros Hk. rewrite Forall_forall in Hall. specialize (Hall k Hk). lia.
Qed.

(** X2.  Whatever the recorders hold, the positions [get_sfs_idxs] returns
    lie within the sequence, so each of them can be used to index it; with
    [last = true] none of them is the last position: the deepest
    activation is never selected. *)
Theorem get_sfs_idxs_in_range (sfs : list SaveFeatures) (last : bool) (idxs : list Z) :
  get_sfs_idxs sfs last = Ok idxs →
  Forall (λ k, 0 ≤ k < Z.of_nat (length sfs) ∧ ∃ sf, py_index sfs k = Ok sf) idxs
  ∧ (last = true → Forall (λ k, k < Z.of_nat (length sfs) - 1) idxs).
Proof.
  intros Hidxs.
  assert (Forall (λ k, 0 ≤ k < Z.of_nat (length sfs)) idxs
          ∧ (last = true → Forall (λ k, k < Z.of_nat (length sfs) - 1) idxs))
    as [Hrange Hlast].
  { destruct last; unfold get_sfs_idxs in Hidxs.
    - apply result_bind_Ok in Hidxs as (ws & Hws & Hidxs).
      apply mapM_result_length in Hws. rewrite <- Hws.
      apply result_bind_Ok in Hidxs as (a & Ha & Hidxs).
      apply result_bind_Ok in Hidxs as (b & Hb & Hidxs).
      apply py_index_Ok_bound in Hb.
      assert (Forall (λ k, 0 ≤ k < Z.of_nat (length ws) - 1)
                (np_where_ne 0 (py_slice_to ws (-1)) (py_slice_from ws 1))) as Hw.
      { apply Forall_forall. intros k (j & x & y & -> & Hx & _)%np_where_ne_elem.
        rewrite py_slice_to_minus_1 in Hx. apply lookup_take_Some in Hx as [_ Hj]. lia. }
      assert (Forall (λ k, 0 ≤ k < Z.of_nat (length ws) - 1) idxs) as Hall.
      { destruct (bool_decide (a ≠ b)); injection Hidxs as <-; [constructor |]; [lia | done ..]. }
      split; [| intros _]; (eapply Forall_impl; [exact Hall | simpl; lia]).
    - injection Hidxs as <-. split; [| discriminate].
      apply Forall_forall. unfold py_range.
      intros k (j & -> & [_ Hj]%elem_of_seq)%list_elem_of_fmap. lia. }
  split; [| done]. eapply Forall_impl; [exact Hrange |].
  intros k Hk. split; [done |]. by apply py_index_in_range.
Qed.

Lemma get_sfs_idxs_in_range_witness :
  Forall (λ k, 0 ≤ k < 3 ∧ ∃ sf,
            py_index (recorded <$> [[1; 8; 16; 16]; [1; 8; 16; 16]; [1; 16; 8; 8]]) k = Ok sf)
    [1]
  ∧ (true = true → Forall (λ k, k < 3 - 1) [1]).
Proof.
  exact (get_sfs_idxs_in_range
           (recorded <$> [[1; 8; 16; 16]; [1; 8; 16; 16]; [1; 16; 8; 8]]) true [1]
           eq_refl).
Defined.

(** X3.  The list [get_sfs_idxs] returns is in ascending order. *)
Theorem get_sfs_idxs_ascending (sfs : list SaveFeatures) (last : bool) (idxs : list Z) :
  get_sfs_idxs sfs last = Ok idxs → StronglySorted Z.le idxs.
Proof.
  destruct last; unfold get_sfs_idxs.
  - intros Hidxs.
    apply result_bind_Ok in Hidxs as (ws & _ & Hidxs).
    apply result_bind_Ok in Hidxs as (a & _ & Hidxs).
    apply result_bind_Ok in Hidxs as (b & _ & Hidxs).
    destruct (np_where_ne_sorted 0 (py_slice_to ws (-1)) (py_slice_from ws 1))
      as [Hsorted Hge].
    apply StronglySorted_lt_le in Hsorted.
    destruct (bool_decide (a ≠ b)); injection Hidxs as <-; [by constructor | done].
  - intros [= <-]. apply StronglySorted_lt_le, py_range_sorted.
Qed.

Lemma get_sfs_idxs_ascending_witness : StronglySorted Z.le [0; 0; 2].
Proof.
  apply (get_sfs_idxs_ascending
           (recorded <$> [[1; 3; 16; 16]; [1; 3; 8; 8]; [1; 3; 8; 8]; [1; 3; 4; 4]]) true).
  reflexivity.
Defined.

(** X4.  On recorded activations with trailing sizes [a], [b], ...,
    [get_sfs_idxs] with [last = true] returns a list without repetition
    exactly when [a = b]; when they differ the list begins with 0 twice. *)
Theorem get_sfs_idxs_NoDup (sfs : list SaveFeatures) (a b : Z) (ws : list Z) :
  Forall2 (λ sf w, ∃ pre, features sf = Some (pre ++ [w])) sfs (a :: b :: ws) →
  ∃ idxs : list Z,
    get_sfs_idxs sfs true = Ok idxs
    ∧ (NoDup idxs ↔ a = b)
    ∧ (a ≠ b → ∃ rest, idxs = 0 :: 0 :: rest).
Proof.
  intros Hws. eexists. split; [by apply get_sfs_idxs_trailing |].
  cbn [take np_where_ne]. case_bool_decide as Hab; cbn [app].
  - split.
    + split; [| by intros ->]. intros Hdup. apply NoDup_cons in Hdup as [Hdup _].
      exfalso. apply Hdup. apply elem_of_cons. by left.
    + intros _. by eexists.
  - split; [| by intros ?]. split; [done |]. intros _.
    apply StronglySorted_lt_NoDup, np_where_ne_sorted.
Qed.

Lemma get_sfs_idxs_NoDup_witness :
  ∃ idxs : list Z,
    get_sfs_idxs (recorded <$> [[1; 3; 16; 16]; [1; 3; 8; 8]; [1; 3; 8; 8]]) true = Ok idxs
    ∧ (NoDup idxs ↔ 16 = 8)
    ∧ (16 ≠ 8 → ∃ rest, idxs = 0 :: 0 :: rest).
Proof.
  apply (get_sfs_idxs_NoDup _ 16 8 [8]).
  repeat constructor; by eexists [_; _; _].
Defined.

(** X5.  On recorded activations, at least two of them, [get_sfs_idxs]
    with [last = true] returns the empty list exactly when all trailing
    sizes are equal. *)
Theorem get_sfs_idxs_empty (sfs : list SaveFeatures) (ws : list Z) :
  Forall2 (λ sf w, ∃ pre, features sf = Some (pre ++ [w])) sfs ws →
  (2 ≤ length ws)%nat →
  get_sfs_idxs sfs true = Ok [] ↔ ∃ w, Forall (λ v, v = w) ws.
Proof.
  intros Hws Hlen.
  destruct (get_sfs_idxs_trailing_elem sfs ws Hws Hlen) as (idxs & -> & Helem).
  split.
  - intros [= ->]. destruct ws as [| w ws]; [simpl in Hlen; lia |]. exists w.
    clear Hws Hlen. revert w Helem. induction ws as [| v ws IH]; intros w Helem.
    + by repeat constructor.
    + destruct (decide (w = v)) as [-> | Hne].
      * constructor; [done |]. apply IH. intros k. split; [by intros ?%elem_of_nil |].
        intros (j & x & y & -> & Hx & Hy & Hxy). exfalso.
        apply (not_elem_of_nil (Z.of_nat (S j))), Helem. by exists (S j), x, y.
      * exfalso. apply (not_elem_of_nil 0), Helem. by exists 0%nat, w, v.
  - intros [w Hall]. f_equal. destruct idxs as [| k idxs]; [done |]. exfalso.
    destruct (proj1 (Helem k)) as (j & x & y & _ & Hx & Hy & Hxy);
      [apply elem_of_cons; by left |].
    rewrite Forall_forall in Hall.
    apply list_elem_of_lookup_2, Hall in Hx. apply list_elem_of_lookup_2, Hall in Hy.
    congruence.
Qed.

Lemma get_sfs_idxs_empty_witness :
  get_sfs_idxs (recorded <$> [[1; 8; 32; 32]; [1; 16; 32; 32]]) true = Ok []
  ↔ ∃ w, Forall (λ v, v = w) [32; 32].
Proof.
  apply (get_sfs_idxs_empty _ [32; 32]).
  - repeat constructor; by eexists [_; _; _].
  - simpl. lia.
Defined.

(** ** conv_bn_relu and UnetBlock, with the size rules of [torch] *)

Lemma Sequential_call_app `{TensorRuntime} (l1 l2 : list layer) (x : tensor) :
  Sequential_call (l1 ++ l2) x = y ← Sequential_call l1 x; Sequential_call l2 y.
Proof.
  revert x. induction l1 as [| l l1 IH]; intros x; [done |].
  cbn [app Sequential_call]. destruct (call_layer l x) as [y | e]; [| done].
  cbn [mbind result_bind]. apply IH.
Qed.

Section Layer_sizes.
#[local] Existing Instance torch.

Lemma conv_bn_relu_call (in_c out_c k s p : Z) (x y : tensor) :
  Sequential_call (conv_bn_relu in_c out_c k s p) x = Ok y
  ↔ ∃ n h w : Z,
      x = [n; in_c; h; w] ∧ 0 < s ∧ k ≤ h + 2 * p ∧ k ≤ w + 2 * p
      ∧ y = [n; out_c; (h + 2 * p - k) `div` s + 1; (w + 2 * p - k) `div` s + 1].
Proof.
  unfold conv_bn_relu. cbn [Sequential_call call_layer torch]. split.
  - destruct x as [| n [| c [| h [| w [| ? ?]]]]];
      cbn [torch_call_layer mbind result_bind]; try discriminate.
    case_bool_decide as Hc; [| discriminate].
    destruct Hc as (-> & Hs & Hh & Hw). cbn [mbind result_bind torch_call_layer].
    case_bool_decide; [| done]. intros [= <-]. by exists n, h, w.
  - intros (n & h & w & -> & Hs & Hh & Hw & ->).
    cbn [torch_call_layer]. rewrite bool_decide_true by done.
    cbn [mbind result_bind torch_call_layer]. by rewrite bool_decide_true.
Qed.

(** The bottleneck of [forward] keeps the size of what it is given. *)
Lemma bottleneck_call (c : Z) (x y : tensor) :
  Sequential_call (conv_bn_relu c (c * 2) 3 1 1 ++ conv_bn_relu (c * 2) c 3 1 1) x = Ok y
  ↔ ∃ n h w : Z, x = [n; c; h; w] ∧ 1 ≤ h ∧ 1 ≤ w ∧ y = x.
Proof.
  rewrite Sequential_call_app. split.
  - intros (x1 & (n & h & w & -> & _ & Hh & Hw & ->)%conv_bn_relu_call
              & (n' & h' & w' & [= <- <- <-] & _ & _ & _ & ->)%conv_bn_relu_call)%result_bind_Ok.
    exists n, h, w. rewrite !Z.div_1_r. split; [done |]. split; [lia |]. split; [lia |].
    do 2 f_equal. f_equal; [lia |]. f_equal. lia.
  - intros (n & h & w & -> & Hh & Hw & ->).
    assert (Sequential_call (conv_bn_relu c (c * 2) 3 1 1) [n; c; h; w]
            = Ok [n; c * 2; h; w]) as ->.
    { apply conv_bn_relu_call. exists n, h, w. rewrite !Z.div_1_r.
      split; [done |]. split; [lia |]. split; [lia |]. split; [lia |].
      do 2 f_equal. f_equal; [lia |]. f_equal. lia. }
    cbn [mbind result_bind]. apply conv_bn_relu_call. exists n, h, w.
    rewrite !Z.div_1_r.
    split; [done |]. split; [lia |]. split; [lia |]. split; [lia |].
    do 2 f_equal. f_equal; [lia |]. f_equal. lia.
Qed.

End Layer_sizes.

(** ** conv_bn_relu and UnetBlock, with the checks of [torch_train] *)

Lemma train_upconv_channels (in_c out_c k s n c h w : Z) :
  c ≠ in_c →
  torch_train_call_layer (ConvTranspose2d in_c out_c k s) [n; c; h; w] = Raise RuntimeError.
Proof.
  intros Hc. unfold torch_train_call_layer.
  case_bool_decide; [| done]. by rewrite bool_decide_false.
Qed.

Lemma train_conv_channels (in_c out_c k s p n c h w : Z) :
  c ≠ in_c →
  torch_train_call_layer (Conv2d in_c out_c k s p) [n; c; h; w] = Raise RuntimeError.
Proof.
  intros Hc. unfold torch_train_call_layer.
  case_bool_decide; [| done]. rewrite bool_decide_false; [done |]. by intros [? _].
Qed.

Section Layer_checks.
#[local] Existing Instance torch_train.

Lemma conv_bn_relu_train (in_c out_c k s p n h w : Z) :
  1 ≤ in_c → 1 ≤ out_c → 1 ≤ k → 1 ≤ s → 0 ≤ p →
  k ≤ h + 2 * p → k ≤ w + 2 * p →
  Sequential_call (conv_bn_relu in_c out_c k s p) [n; in_c; h; w]
  = if bool_decide
         (n * (((h + 2 * p - k) `div` s + 1) * ((w + 2 * p - k) `div` s + 1)) = 1)
    then Raise ValueError
    else Ok [n; out_c; (h + 2 * p - k) `div` s + 1; (w + 2 * p - k) `div` s + 1].
Proof.
  intros. unfold conv_bn_relu. cbn [Sequential_call call_layer torch_train].
  rewrite train_conv by done. cbn [mbind result_bind torch_train_call_layer].
  case_bool_decide; [done |]. by rewrite bool_decide_true.
Qed.

Lemma conv_bn_relu_train_Ok (in_c out_c k s p : Z) (x y : tensor) :
  Sequential_call (conv_bn_relu in_c out_c k s p) x = Ok y →
  ∃ n h w : Z,
    x = [n; in_c; h; w] ∧ 0 < s ∧ 0 ≤ p ∧ k ≤ h + 2 * p ∧ k ≤ w + 2 * p
    ∧ y = [n; out_c; (h + 2 * p - k) `div` s + 1; (w + 2 * p - k) `div` s + 1].
Proof.
  unfold conv_bn_relu. cbn [Sequential_call call_layer torch_train].
  intros Hcall.
  apply result_bind_Ok in Hcall as (x1 & Hconv & Hcall).
  apply train_conv_Ok in Hconv
    as ((_ & _ & _ & Hs & Hp) & b & h & w & Hb & -> & Hh & Hw & ->).
  cbn [mbind result_bind torch_train_call_layer] in Hcall.
  apply result_bind_Ok in Hcall as (x2 & Hbn & [= <-]).
  apply train_bn_Ok in Hbn as (n & h2 & w2 & Hx2 & _ & ->).
  destruct b as [| n1 [| ? ?]]; [discriminate | | simpl in Hb; lia].
  cbn [app] in *. injection Hx2 as -> _ _.
  exists n, h, w. split; [done |]. split; [lia |]. done.
Qed.

(** X6.  The layers of [conv_bn_relu], called in order on a tensor.  With
    positive channel counts, kernel and stride, a padding that is not
    negative and a batch of [in_c] channels no smaller, once padded, than
    the kernel, they return [out_c] channels at the spatial sizes of the
    convolution when the result holds more than one value per channel;
    when it holds exactly one, the normalization, in training mode, raises
    [ValueError].  Whenever they return, their input was such a batch and
    the result has that size: the normalization that ends the list always
    fits the convolution that starts it. *)
Theorem conv_bn_relu_size (in_c out_c k s p : Z) :
  (∀ n h w : Z,
     1 ≤ in_c → 1 ≤ out_c → 1 ≤ k → 1 ≤ s → 0 ≤ p →
     1 ≤ n → 1 ≤ h → 1 ≤ w → k ≤ h + 2 * p → k ≤ w + 2 * p →
     Sequential_call (conv_bn_relu in_c out_c k s p) [n; in_c; h; w]
     = if bool_decide
            (n * (((h + 2 * p - k) `div` s + 1) * ((w + 2 * p - k) `div` s + 1)) = 1)
       then Raise ValueError
       else Ok [n; out_c; (h + 2 * p - k) `div` s + 1; (w + 2 * p - k) `div` s + 1])
  ∧ (∀ x y : tensor,
       Sequential_call (conv_bn_relu in_c out_c k s p) x = Ok y →
       ∃ n h w : Z,
         x = [n; in_c; h; w] ∧ 0 < s ∧ 0 ≤ p ∧ k ≤ h + 2 * p ∧ k ≤ w + 2 * p
         ∧ y = [n; out_c; (h + 2 * p - k) `div` s + 1; (w + 2 * p - k) `div` s + 1]).
Proof.
  split.
  - intros n h w ? ? ? ? ? _ _ _ ? ?. by apply conv_bn_relu_train.
  - apply conv_bn_relu_train_Ok.
Qed.

(** The first layers of a ResNet on a 32x32 image, and a convolution that
    leaves one value per channel. *)
Lemma conv_bn_relu_size_witness :
  Sequential_call (conv_bn_relu 3 64 7 2 3) [1; 3; 32; 32] = Ok [1; 64; 16; 16]
  ∧ Sequential_call (conv_bn_relu 3 64 3 1 0) [1; 3; 3; 3] = Raise ValueError
  ∧ ∃ n h w : Z,
      [1; 3; 32; 32] = [n; 3; h; w] ∧ 0 < 2 ∧ 0 ≤ 3 ∧ 7 ≤ h + 2 * 3 ∧ 7 ≤ w + 2 * 3
      ∧ [1; 64; 16; 16]
        = [n; 64; (h + 2 * 3 - 7) `div` 2 + 1; (w + 2 * 3 - 7) `div` 2 + 1].
Proof.
  split; [| split].
  - apply (proj1 (conv_bn_relu_size 3 64 7 2 3) 1 32 32); lia.
  - apply (proj1 (conv_bn_relu_size 3 64 3 1 0) 1 3 3); lia.
  - apply (proj2 (conv_bn_relu_size 3 64 7 2 3) [1; 3; 32; 32] [1; 64; 16; 16]).
    reflexivity.
Defined.

Lemma conv_bn_relu_train3 (c o n h w : Z) :
  1 ≤ c → 1 ≤ o → 1 ≤ h → 1 ≤ w →
  Sequential_call (conv_bn_relu c o 3 1 1) [n; c; h; w]
  = if bool_decide (n * (h * w) = 1) then Raise ValueError else Ok [n; o; h; w].
Proof.
  intros. rewrite conv_bn_relu_train by lia. rewrite !Z.div_1_r.
  by replace (h + 2 * 1 - 3 + 1) with h by lia; replace (w + 2 * 1 - 3 + 1) with w by lia.
Qed.

(** X7.  The bottleneck that [forward] builds for a channel count [c],
    called on a batch of [c] channels: it returns a tensor of the size it
    was given when the batch holds more than one value per channel, and
    raises [ValueError], in its first normalization, when it holds exactly
    one, as a batch of one 1x1 activation does.  Whenever the bottleneck
    returns, its input was a batch of [c] channels and positive spatial
    sizes, and it returns that size. *)
Theorem bottleneck_keeps_size (c : Z) :
  (∀ n h w : Z, 1 ≤ c → 1 ≤ n → 1 ≤ h → 1 ≤ w →
     Sequential_call (conv_bn_relu c (c * 2) 3 1 1 ++ conv_bn_relu (c * 2) c 3 1 1)
       [n; c; h; w]
     = if bool_decide (n * (h * w) = 1) then Raise ValueError else Ok [n; c; h; w])
  ∧ (1 ≤ c →
     Sequential_call (conv_bn_relu c (c * 2) 3 1 1 ++ conv_bn_relu (c * 2) c 3 1 1)
       [1; c; 1; 1]
     = Raise ValueError)
  ∧ (∀ x y : tensor,
       Sequential_call (conv_bn_relu c (c * 2) 3 1 1 ++ conv_bn_relu (c * 2) c 3 1 1) x
       = Ok y →
       ∃ n h w : Z, x = [n; c; h; w] ∧ 1 ≤ h ∧ 1 ≤ w ∧ y = x).
Proof.
  assert (∀ n h w : Z, 1 ≤ c → 1 ≤ h → 1 ≤ w →
    Sequential_call (conv_bn_relu c (c * 2) 3 1 1 ++ conv_bn_relu (c * 2) c 3 1 1)
      [n; c; h; w]
    = if bool_decide (n * (h * w) = 1) then Raise ValueError else Ok [n; c; h; w])
    as Hcall.
  { intros n h w Hc Hh Hw. rewrite Sequential_call_app.
    rewrite conv_bn_relu_train3 by lia. case_bool_decide as Hone; [done |].
    cbn [mbind result_bind]. rewrite conv_bn_relu_train3 by lia.
    by rewrite bool_decide_false. }
  split; [| split].
  - intros n h w Hc _ Hh Hw. by apply Hcall.
  - intros Hc. by rewrite Hcall by lia.
  - intros x y. rewrite Sequential_call_app.
    intros (x1 & (n & h & w & -> & _ & _ & Hh & Hw & ->)%conv_bn_relu_train_Ok
               & (n' & h' & w' & [= <- <- <-] & _ & _ & _ & _ & ->)%conv_bn_relu_train_Ok
           )%result_bind_Ok.
    exists n, h, w. rewrite !Z.div_1_r. split; [done |]. split; [lia |]. split; [lia |].
    do 2 f_equal. f_equal; [lia |]. f_equal. lia.
Qed.

(** The deepest activation of a ResNet on a 32x32 image goes through; on a
    16x16 image it is a single value per channel and does not. *)
Lemma bottleneck_keeps_size_witness :
  Sequential_call (conv_bn_relu 64 (64 * 2) 3 1 1 ++ conv_bn_relu (64 * 2) 64 3 1 1)
    [1; 64; 2; 2] = Ok [1; 64; 2; 2]
  ∧ Sequential_call (conv_bn_relu 64 (64 * 2) 3 1 1 ++ conv_bn_relu (64 * 2) 64 3 1 1)
      [1; 64; 1; 1] = Raise ValueError
  ∧ ∃ n h w : Z, [1; 64; 2; 2] = [n; 64; h; w] ∧ 1 ≤ h ∧ 1 ≤ w
                 ∧ [1; 64; 2; 2] = [1; 64; 2; 2].
Proof.
  destruct (bottleneck_keeps_size 64) as (Hcall & Hone & Hinv).
  split; [apply (Hcall 1 2 2); lia |]. split; [apply Hone; lia |].
  apply Hinv. reflexivity.
Defined.

(** X8.  How a decoder block built for [up_in_c >= 2] and [x_in_c >= 1]
    channels fails on a batch: an input whose channel count is not
    [up_in_c] raises [RuntimeError] whatever the skip activation; with a
    fitting input, a missing skip activation ([None]) raises [TypeError],
    and a skip activation of another batch size, of a spatial size that is
    not twice the input's, or of a channel count that is not [x_in_c]
    raises [RuntimeError]. *)
Theorem UnetBlock_forward_errors (up_in_c x_in_c n h w : Z) :
  2 ≤ up_in_c → 1 ≤ x_in_c → 1 ≤ n → 1 ≤ h → 1 ≤ w →
  (∀ (c : Z) (x_in : option tensor), c ≠ up_in_c →
     UnetBlock_forward (UnetBlock_init up_in_c x_in_c) [n; c; h; w] x_in
     = Raise RuntimeError)
  ∧ UnetBlock_forward (UnetBlock_init up_in_c x_in_c) [n; up_in_c; h; w] None
    = Raise TypeError
  ∧ (∀ n' c' h' w' : Z, n' ≠ n ∨ h' ≠ 2 * h ∨ w' ≠ 2 * w →
       UnetBlock_forward (UnetBlock_init up_in_c x_in_c)
         [n; up_in_c; h; w] (Some [n'; c'; h'; w'])
       = Raise RuntimeError)
  ∧ (∀ c' : Z, c' ≠ x_in_c →
       UnetBlock_forward (UnetBlock_init up_in_c x_in_c)
         [n; up_in_c; h; w] (Some [n; c'; 2 * h; 2 * w])
       = Raise RuntimeError).
Proof.
  intros Hup Hx Hn Hh Hw.
  assert (1 ≤ up_in_c `div` 2) by (apply Z.div_le_lower_bound; lia).
  assert (1 ≤ (x_in_c + up_in_c `div` 2) `div` 2) by (apply Z.div_le_lower_bound; lia).
  unfold UnetBlock_forward, UnetBlock_init.
  cbn [call_layer cat_dim1 torch_train upconv conv1 conv2 bn].
  split; [| split; [| split]].
  - intros c x_in Hc. by rewrite train_upconv_channels.
  - by rewrite train_upconv by lia.
  - intros n' c' h' w' Hne. rewrite train_upconv by lia. cbn [mbind result_bind].
    unfold torch_cat_dim1. rewrite bool_decide_false; [done |].
    intros [Hn' [= Hh' Hw']]. lia.
  - intros c' Hc'. rewrite train_upconv by lia. cbn [mbind result_bind].
    rewrite torch_cat. cbn [mbind result_bind].
    rewrite train_conv_channels; [done | lia].
Qed.

Lemma UnetBlock_forward_errors_witness :
  UnetBlock_forward (UnetBlock_init 64 32) [1; 3; 4; 4] (Some [1; 32; 8; 8])
  = Raise RuntimeError
  ∧ UnetBlock_forward (UnetBlock_init 64 32) [1; 64; 4; 4] None = Raise TypeError
  ∧ UnetBlock_forward (UnetBlock_init 64 32) [1; 64; 4; 4] (Some [1; 32; 4; 4])
    = Raise RuntimeError
  ∧ UnetBlock_forward (UnetBlock_init 64 32) [1; 64; 4; 4] (Some [1; 16; 8; 8])
    = Raise RuntimeError.
Proof.
  destruct (UnetBlock_forward_errors 64 32 1 4 4) as (Hin & Hnone & Hsize & Hskip);
    [lia | lia | lia | lia | lia |].
  split; [apply Hin; lia |]. split; [exact Hnone |]. split; [apply Hsize; lia |].
  apply (Hskip 16). lia.
Defined.

End Layer_checks.

(** ** The encoder pass and its recorders *)

Lemma hook_fn_insert (output : tensor) (i : nat) (l : list SaveFeatures) :
  alter (λ sf, hook_fn sf output) i l = <[i := recorded output]> l.
Proof.
  revert i. induction l as [| sf l IH]; intros [| i]; try done.
  cbn. by rewrite <- IH.
Qed.

Lemma py_index_cons_last {A} (a b : A) (l : list A) :
  py_index (a :: b :: l) (-1) = py_index (b :: l) (-1).
Proof.
  destruct (exists_last (l := b :: l)) as (l' & z & Hl); [done |].
  rewrite Hl, py_index_last. by rewrite app_comm_cons, py_index_last.
Qed.

(** An encoder pass that returns has stored the activation of child [k]
    in recorder [i + k], and returns the last activation. *)
Lemma encoder_call_Ok (children : list stage) (i : nat) (x y : tensor)
    (s s' : DynamicUnet) :
  encoder_call children i x s = (s', Ok y) →
  (i + length children ≤ length (sfs s))%nat →
  ∃ ys, activations children x = Ok ys
    ∧ py_index (x :: ys) (-1) = Ok y
    ∧ s' = set_sfs (take i (sfs s) ++ (recorded <$> ys)
                      ++ drop (i + length children) (sfs s)) s.
Proof.
  revert i x s. induction children as [| m children IH]; intros i x s.
  - intros [= <- <-] _. exists []. split; [done |]. split; [done |].
    rewrite Nat.add_0_r. cbn [fmap list_fmap app]. rewrite take_drop.
    apply set_sfs_id.
  - cbn [encoder_call activations length]. py_simpl.
    destruct (m x) as [output | e]; [| discriminate]. cbn [mbind result_bind].
    intros Hrec Hlen. apply IH in Hrec as (ys & -> & Hy & ->);
      [| cbn [sfs set_sfs]; rewrite length_alter; lia].
    exists (output :: ys). split; [done |].
    split; [destruct ys; [done | by rewrite py_index_cons_last] |].
    cbn [sfs set_sfs]. rewrite hook_fn_insert.
    rewrite (take_S_r _ _ (recorded output))
      by (apply list_lookup_insert_eq; lia).
    rewrite take_insert_ge, drop_insert_lt by lia.
    replace (i + S (length children))%nat with (S i + length children)%nat by lia.
    by rewrite <- app_assoc.
Qed.

(** Whether the encoder pass returns, and what, is decided by the
    activations alone. *)
Lemma encoder_call_result (children : list stage) (i : nat) (x : tensor) (s : DynamicUnet) :
  (encoder_call children i x s).2 = (ys ← activations children x; py_index (x :: ys) (-1)).
Proof.
  revert i x s. induction children as [| m children IH]; intros i x s; [done |].
  cbn [encoder_call activations]. py_simpl.
  destruct (m x) as [output | e]; [| done]. cbn [mbind result_bind].
  rewrite IH. destruct (activations children output) as [ys | e]; [| done].
  cbn [mbind result_bind]. by rewrite py_index_cons_last.
Qed.

Section Forward_frames.
Context `{TensorRuntime}.

Lemma bind_keeps_sfs {A B} (m : Py A) (f : A → Py B) :
  (∀ s, sfs (m s).1 = sfs s) → (∀ a s, sfs (f a s).1 = sfs s) →
  ∀ s, sfs ((m ≫= f) s).1 = sfs s.
Proof.
  intros Hm Hf s. unfold mbind, Py_bind. specialize (Hm s).
  destruct (m s) as [s1 [a | e]]; cbn [fst] in *; [| done].
  by rewrite Hf.
Qed.

Lemma build_upmodel_sfs (idxs : list Z) (blocks : list UnetBlock) (x : tensor)
    (s : DynamicUnet) :
  sfs (build_upmodel idxs blocks x s).1 = sfs s.
Proof. by destruct (build_upmodel_frame idxs blocks x s) as [-> | [bs ->]]. Qed.

(** Assignments to recorders aside, a method body is made of steps that
    keep [self.sfs]. *)
Ltac keeps_sfs :=
  repeat (apply bind_keeps_sfs; [| intros ?; cbv beta]);
  try (intros ?; reflexivity).

Lemma init_middle_conv_sfs (s : DynamicUnet) : sfs (init_middle_conv s).1 = sfs s.
Proof. revert s. unfold init_middle_conv. keeps_sfs. Qed.

Lemma init_upmodel_sfs (imsize x : tensor) (s : DynamicUnet) :
  sfs (init_upmodel imsize x s).1 = sfs s.
Proof.
  revert s. unfold init_upmodel. keeps_sfs.
  - intros s. apply build_upmodel_sfs.
  - case_bool_decide; keeps_sfs.
Qed.

(** After the encoder pass, [forward] assigns no recorder. *)
Lemma forward_sfs (x : tensor) (s : DynamicUnet) :
  sfs (DynamicUnet_forward x s).1 = sfs (encoder_call (encoder s) 0 x s).1.
Proof.
  unfold DynamicUnet_forward.
  change ((attr encoder ≫= ?f) s) with (f (encoder s) s). cbv beta.
  unfold mbind at 1, Py_bind at 1.
  destruct (encoder_call (encoder s) 0 x s) as [s1 [x1 | e]]; [| done].
  cbn [fst]. revert s1. keeps_sfs; intros s1.
  - destruct (negb _); [apply init_middle_conv_sfs | done].
  - destruct (negb _); [apply init_upmodel_sfs | done].
  - by rewrite run_upsample_frame.
  - by match goal with |- context [match ?extra with Some _ => _ | None => _ end] =>
         destruct extra end.
Qed.

Lemma forward_result_encoder (x : tensor) (s : DynamicUnet) (e : exn) :
  (encoder_call (encoder s) 0 x s).2 = Raise e → (DynamicUnet_forward x s).2 = Raise e.
Proof.
  unfold DynamicUnet_forward.
  change ((attr encoder ≫= ?f) s) with (f (encoder s) s). cbv beta.
  unfold mbind at 1, Py_bind at 1.
  destruct (encoder_call (encoder s) 0 x s) as [s1 [x1 | e']]; [discriminate |].
  by intros [= ->].
Qed.

(** X9.  On an instance with one recorder per child, a call of [forward]
    whose encoder pass goes through leaves in recorder [i] the activation
    of child [i] in this very call, whatever the recorders held before and
    whatever the rest of the call does; and an exception raised by a child
    is the exception raised by [forward]. *)
Theorem recorders_hold_activations (x : tensor) (s : DynamicUnet) :
  length (sfs s) = length (encoder s) →
  (∀ ys : list tensor,
     activations (encoder s) x = Ok ys →
     sfs (DynamicUnet_forward x s).1 = recorded <$> ys)
  ∧ (∀ e : exn,
       activations (encoder s) x = Raise e → (DynamicUnet_forward x s).2 = Raise e).
Proof.
  intros Hlen. split.
  - intros ys Hys. rewrite forward_sfs.
    pose proof (encoder_call_result (encoder s) 0 x s) as Hres.
    rewrite Hys in Hres. cbn [mbind result_bind] in Hres.
    destruct (exists_last (l := x :: ys)) as (l' & y & Hl); [done |].
    rewrite Hl, py_index_last in Hres.
    destruct (encoder_call (encoder s) 0 x s) as [s1 r] eqn:Hcall.
    cbn [snd] in Hres. subst r.
    apply encoder_call_Ok in Hcall as (ys' & Hys' & _ & ->); [| simpl; lia].
    rewrite Hys in Hys'. injection Hys' as <-.
    cbn [fst sfs set_sfs take app]. rewrite Nat.add_0_l, <- Hlen, drop_all.
    by rewrite app_nil_r.
  - intros e He. apply forward_result_encoder.
    rewrite encoder_call_result, He. reflexivity.
Qed.

End Forward_frames.

Lemma recorders_hold_activations_witness :
  sfs resnet_like_run.1
  = recorded <$> [[1; 8; 16; 16]; [1; 8; 16; 16]; [1; 8; 16; 16]; [1; 8; 16; 16];
                  [1; 16; 8; 8]; [1; 32; 4; 4]; [1; 64; 2; 2]].
Proof.
  apply (@recorders_hold_activations torch [1; 3; 32; 32]
           (DynamicUnet_init resnet_like true 1)); reflexivity.
Defined.

(** ** The first call, when it returns *)

Lemma features_size_recorded (ys : list tensor) :
  mapM features_size (recorded <$> ys) = Ok ys.
Proof.
  induction ys as [| y ys IH]; [done |].
  rewrite fmap_cons, mapM_result_cons, IH. reflexivity.
Qed.

Lemma get_sfs_idxs_true_length (sfs : list SaveFeatures) (idxs : list Z) :
  get_sfs_idxs sfs true = Ok idxs → (2 ≤ length sfs)%nat.
Proof.
  unfold get_sfs_idxs. intros Hidxs.
  apply result_bind_Ok in Hidxs as (ws & Hws & Hidxs).
  apply mapM_result_length in Hws.
  apply result_bind_Ok in Hidxs as (a & _ & Hidxs).
  apply result_bind_Ok in Hidxs as (b & Hb%py_index_Ok_bound & _). lia.
Qed.

Section First_call_returns.
Context `{TensorRuntime}.

Lemma encoder_call_init (enc : list stage) (l : bool) (nc : Z) (x x1 : tensor)
    (s1 : DynamicUnet) :
  encoder_call enc 0 x (DynamicUnet_init enc l nc) = (s1, Ok x1) →
  ∃ ys, activations enc x = Ok ys
    ∧ py_index (x :: ys) (-1) = Ok x1
    ∧ s1 = set_sfs (recorded <$> ys) (DynamicUnet_init enc l nc).
Proof.
  intros Hcall. apply encoder_call_Ok in Hcall as (ys & Hys & Hlast & ->).
  - exists ys. split; [done |]. split; [done |].
    cbn [sfs DynamicUnet_init take app]. rewrite drop_ge; [by rewrite app_nil_r |].
    rewrite length_fmap, length_seq. lia.
  - cbn [sfs DynamicUnet_init]. rewrite length_fmap, length_seq. lia.
Qed.

(** What a first call that returns has gone through. *)
Lemma first_call_Ok_inv (enc : list stage) (l : bool) (nc : Z) (x : tensor)
    (m1 : DynamicUnet) (out : tensor) :
  first_call enc l nc x = (m1, Ok out) →
  ∃ (ys : list tensor) (x1 : tensor) (idxs : list Z) (c : Z) (x2 x3 : tensor)
    (s2 s3 : DynamicUnet) (blocks : list UnetBlock) (y : tensor) (c' : Z),
    activations enc x = Ok ys
    ∧ py_index ys (-1) = Ok x1
    ∧ get_sfs_idxs (recorded <$> ys) l = Ok idxs
    ∧ py_index x1 1 = Ok c
    ∧ Sequential_call
        (conv_bn_relu c (c * 2) 3 1 1 ++ conv_bn_relu (c * 2) c 3 1 1) (F_relu x1)
      = Ok x2
    ∧ sfs s2 = recorded <$> ys ∧ sfs_szs s2 = Some ys ∧ upmodel s2 = None
    ∧ build_upmodel (py_reversed idxs) [] (detached x2) s2 = (s3, Ok x3)
    ∧ upmodel s3 = Some blocks
    ∧ encoder m1 = enc
    ∧ middle_conv m1
      = Some (conv_bn_relu c (c * 2) 3 1 1 ++ conv_bn_relu (c * 2) c 3 1 1)
    ∧ sfs m1 = recorded <$> ys ∧ upmodel m1 = Some blocks ∧ sfs_idxs m1 = Some idxs
    ∧ run_upsample (zip blocks (py_reversed idxs)) x2 m1 = (m1, Ok y)
    ∧ final_conv m1 = Some (Conv2d c' nc 1 1 0)
    ∧ match extra_block m1 with
      | Some extra =>
          extra = ConvTranspose2d c' c' 2 2
          ∧ ∃ y', call_layer extra y = Ok y'
                  ∧ sigmoid <$> call_layer (Conv2d c' nc 1 1 0) y' = Ok out
      | None => sigmoid <$> call_layer (Conv2d c' nc 1 1 0) y = Ok out
      end.
Proof.
  unfold first_call, DynamicUnet_forward. py_simpl.
  destruct (encoder_call enc 0 x _) as [s1 [x1 | e]] eqn:Henc; [| discriminate].
  apply encoder_call_init in Henc as (ys & Hys & Hx1 & ->).
  py_simpl. unfold init_middle_conv. py_simpl. rewrite features_size_recorded. py_simpl.
  destruct (get_sfs_idxs (recorded <$> ys) l) as [idxs | e] eqn:Hidxs; [| discriminate].
  py_simpl.
  destruct (py_index ys (-1)) as [sz | e] eqn:Hsz; [| discriminate].
  assert (sz = x1) as ->.
  { destruct ys as [| y0 ys]; [discriminate |].
    rewrite py_index_cons_last in Hx1. congruence. }
  py_simpl.
  destruct (py_index x1 1) as [c | e] eqn:Hc; [| discriminate].
  py_simpl.
  destruct (Sequential_call _ (F_relu x1)) as [x2 | e] eqn:Hseq; [| discriminate].
  unfold init_upmodel. py_simpl.
  match goal with |- context [build_upmodel ?i ?b ?z ?s] =>
    pose proof (build_upmodel_Ok i b z) as Hbuilt;
    set (s2 := s) in *;
    destruct (build_upmodel i b z s2) as [s3 [x3 | e]] eqn:Hbuild end;
    [| discriminate].
  specialize (Hbuilt _ _ _ Hbuild).
  destruct (py_reversed idxs) as [| idx ridxs] eqn:Hrev.
  { subst s3 s2. py_simpl. destruct (py_index ys 0); [| discriminate].
    destruct (bool_decide _); discriminate. }
  destruct Hbuilt as (bs & Hs3 & Hlen). rewrite app_nil_l in Hs3.
  intros Hrun.
  exists ys, x1, idxs, c, x2, x3, s2, s3, bs.
  assert (upmodel s3 = Some bs) as Hup3 by (by rewrite Hs3).
  rewrite <- Hrev in Hbuild. clear Hlen.
  assert (sfs s2 = recorded <$> ys ∧ sfs_szs s2 = Some ys ∧ upmodel s2 = None)
    as (Hsfs2 & Hszs2 & Hup2) by done.
  rewrite Hs3 in Hrun. subst s2. py_simpl.
  destruct (py_index ys 0) as [sz0 | e]; [| discriminate].
  destruct (py_index bs (-1)) as [block | e] eqn:Hblock;
    [| destruct (bool_decide _); py_simpl; rewrite ?Hblock in Hrun; discriminate].
  destruct (out_channels (conv2 block)) as [c' | e] eqn:Hc';
    [| destruct (bool_decide _); py_simpl; rewrite ?Hblock, ?Hc' in Hrun; discriminate].
  destruct (bool_decide _);
    repeat progress (py_simpl; rewrite ?Hblock, ?Hc' in Hrun);
    match type of Hrun with context [run_upsample ?p ?z ?s] =>
      pose proof (run_upsample_frame p z s) as Hf;
      destruct (run_upsample p z s) as [s' [y | e]] eqn:Hloop;
      [| discriminate]; cbn [fst] in Hf; subst s'; py_simpl
    end;
    exists y, c'; (do 10 (split; [done |])).
  - destruct (call_layer (ConvTranspose2d c' c' 2 2) y) as [y' | e] eqn:Hy';
      [| discriminate]. py_simpl.
    destruct (call_layer (Conv2d c' nc 1 1 0) y') as [out' | e] eqn:Hout;
      [| discriminate].
    apply pair_equal_spec in Hrun as [<- [= <-]].
    py_simpl. do 7 (split; [done |]). split; [done |]. exists y'. by rewrite ?Hout.
  - destruct (call_layer (Conv2d c' nc 1 1 0) y) as [out' | e] eqn:Hout;
      [| discriminate].
    apply pair_equal_spec in Hrun as [<- [= <-]].
    py_simpl. do 7 (split; [done |]). by rewrite ?Hout.
Qed.

End First_call_returns.

(** ** The first call, when the selection of skip indices is empty *)

Section Empty_selection.
Context `{TensorRuntime}.

Lemma bind_keeps_sfs_idxs {A B} (m : Py A) (f : A → Py B) :
  (∀ s, sfs_idxs (m s).1 = sfs_idxs s) → (∀ a s, sfs_idxs (f a s).1 = sfs_idxs s) →
  ∀ s, sfs_idxs ((m ≫= f) s).1 = sfs_idxs s.
Proof.
  intros Hm Hf s. unfold mbind, Py_bind. specialize (Hm s).
  destruct (m s) as [s1 [a | e]]; cbn [fst] in *; [| done].
  by rewrite Hf.
Qed.

Ltac keeps_sfs_idxs :=
  repeat (apply bind_keeps_sfs_idxs; [| intros ?; cbv beta]);
  try (intros ?; reflexivity).

Lemma init_upmodel_sfs_idxs (imsize x : tensor) (s : DynamicUnet) :
  sfs_idxs (init_upmodel imsize x s).1 = sfs_idxs s.
Proof.
  revert s. unfold init_upmodel. keeps_sfs_idxs.
  - intros s. by destruct (build_upmodel_frame (py_reversed a) [] (detached x) s)
      as [-> | [bs ->]].
  - case_bool_decide; keeps_sfs_idxs.
Qed.

Lemma init_middle_conv_selection (ys : list tensor) (s0 s2 : DynamicUnet)
    (r : result ()) (idxs : list Z) :
  sfs_idxs s0 = None →
  init_middle_conv (set_sfs (recorded <$> ys) s0) = (s2, r) →
  sfs_idxs s2 = Some idxs →
  get_sfs_idxs (recorded <$> ys) (last s0) = Ok idxs.
Proof.
  intros Hnone. unfold init_middle_conv. py_simpl.
  rewrite features_size_recorded. py_simpl.
  destruct (get_sfs_idxs (recorded <$> ys) (last s0)) as [idxs' | e];
    [| intros [<- <-]%pair_equal_spec; cbn; congruence].
  py_simpl.
  destruct (py_index ys (-1)) as [sz | e];
    [| intros [<- <-]%pair_equal_spec; cbn; congruence].
  py_simpl.
  destruct (py_index sz 1) as [c | e];
    intros [<- <-]%pair_equal_spec; cbn; congruence.
Qed.

(** The selection that a first call leaves in [sfs_idxs] is the one
    [get_sfs_idxs] gives for the activations of this call. *)
Lemma first_call_selection (enc : list stage) (l : bool) (nc : Z) (x : tensor)
    (idxs : list Z) :
  sfs_idxs (first_call enc l nc x).1 = Some idxs →
  ∃ ys, activations enc x = Ok ys ∧ get_sfs_idxs (recorded <$> ys) l = Ok idxs.
Proof.
  unfold first_call, DynamicUnet_forward.
  change ((attr encoder ≫= ?f) ?s) with (f (encoder s) s). cbv beta.
  cbn [encoder DynamicUnet_init].
  unfold mbind at 1, Py_bind at 1.
  destruct (encoder_call enc 0 x _) as [s1 [x1 | e]] eqn:Henc.
  2: { destruct (encoder_call_frame enc 0 x (DynamicUnet_init enc l nc)) as [v Hv].
       rewrite Henc in Hv. cbn [fst] in Hv. subst s1. discriminate. }
  apply encoder_call_init in Henc as (ys & Hys & _ & ->).
  intros Hsome. exists ys. split; [done |]. revert Hsome.
  change ((hasattr middle_conv ≫= ?f) ?s) with (f false s). cbv beta. cbn [negb].
  unfold mbind at 1, Py_bind at 1.
  match goal with |- context [init_middle_conv ?s] =>
    destruct (init_middle_conv s) as [s2 [[] | e]] eqn:Hinit end.
  - match goal with |- sfs_idxs (?rest ?s).1 = _ → _ =>
      assert (∀ s', sfs_idxs (rest s').1 = sfs_idxs s') as Hkeep end.
    { keeps_sfs_idxs; intros s'.
      - destruct (negb _); [apply init_upmodel_sfs_idxs | done].
      - by rewrite run_upsample_frame.
      - by match goal with |- context [match ?extra with Some _ => _ | None => _ end] =>
             destruct extra end. }
    rewrite Hkeep. clear Hkeep.
    by apply (init_middle_conv_selection ys (DynamicUnet_init enc l nc) s2 (Ok ())).
  - cbn [fst]. by apply (init_middle_conv_selection ys (DynamicUnet_init enc l nc) s2 (Raise e)).
Qed.

(** With an empty selection the loop that builds the decoder blocks does
    nothing, and what follows the bottleneck reads [self.upmodel]: a first
    call that stores an empty selection raises [IndexError] before it has
    built the bottleneck, the exception of the bottleneck if that raises,
    and [AttributeError] otherwise. *)
Lemma empty_selection_cases (enc : list stage) (l : bool) (nc : Z) (x : tensor)
    (m1 : DynamicUnet) (r : result tensor) :
  first_call enc l nc x = (m1, r) →
  sfs_idxs m1 = Some [] →
  (middle_conv m1 = None ∧ r = Raise IndexError)
  ∨ ∃ (layers : list layer) (recorder : SaveFeatures) (x1 : tensor),
      middle_conv m1 = Some layers
      ∧ py_index (sfs m1) (-1) = Ok recorder
      ∧ features recorder = Some x1
      ∧ match Sequential_call layers (F_relu x1) with
        | Ok _ => r = Raise AttributeError
        | Raise e => r = Raise e
        end.
Proof.
  intros Hcall Hempty.
  pose proof (forward_sfs x (DynamicUnet_init enc l nc)) as Hsfs.
  pose proof (first_call_selection enc l nc x []) as Hsel.
  rewrite Hcall in Hsel. destruct (Hsel Hempty) as (ys' & Hys' & Hidxs). clear Hsel.
  unfold first_call in Hcall. rewrite Hcall in Hsfs.
  cbn [fst encoder DynamicUnet_init] in Hsfs.
  revert Hcall. unfold DynamicUnet_forward. py_simpl.
  destruct (encoder_call enc 0 x _) as [s1 [xe | e]] eqn:Henc.
  2: { intros [<- <-]%pair_equal_spec.
       destruct (encoder_call_frame enc 0 x (DynamicUnet_init enc l nc)) as [v Hv].
       rewrite Henc in Hv. cbn [fst] in Hv. subst s1. discriminate. }
  apply encoder_call_init in Henc as (ys & Hys & Hxe & ->).
  rewrite Hys' in Hys. injection Hys as ->.
  cbn [fst sfs set_sfs] in Hsfs.
  py_simpl. unfold init_middle_conv. py_simpl. rewrite features_size_recorded. py_simpl.
  rewrite Hidxs. py_simpl.
  destruct (py_index ys (-1)) as [sz | e] eqn:Hsz.
  2: { intros [<- <-]%pair_equal_spec. left. split; [done |].
       by rewrite (py_index_Raise _ _ _ Hsz). }
  assert (sz = xe) as ->.
  { destruct ys as [| y0 ys]; [discriminate |].
    rewrite py_index_cons_last in Hxe. congruence. }
  py_simpl.
  destruct (py_index xe 1) as [c | e] eqn:Hc.
  2: { intros [<- <-]%pair_equal_spec. left. split; [done |].
       by rewrite (py_index_Raise _ _ _ Hc). }
  py_simpl. intros Hrun. right.
  exists (conv_bn_relu c (c * 2) 3 1 1 ++ conv_bn_relu (c * 2) c 3 1 1), (recorded xe), xe.
  assert (py_index (sfs m1) (-1) = Ok (recorded xe)) as Hrec
    by (by rewrite Hsfs, py_index_fmap, Hsz).
  destruct (Sequential_call _ (F_relu xe)) as [x2 | e] eqn:Hseq.
  2: { apply pair_equal_spec in Hrun as [<- <-]. by repeat split. }
  revert Hrun. unfold init_upmodel. py_simpl.
  change (py_reversed []) with (@nil Z). cbn [build_upmodel]. py_simpl.
  destruct ys as [| y0 ys]; [discriminate |]. rewrite py_index_0. py_simpl.
  destruct (bool_decide _); py_simpl;
    intros [<- <-]%pair_equal_spec; by repeat split.
Qed.

Section First_call_empty.
Variables (enc : list stage) (l : bool) (nc : Z) (x : tensor).

#[local] Abbreviation call := (first_call enc l nc x).

(** C2, as the program has it.  When the selection of skip indices that the
    first call of [forward] stores is empty, the loop that builds the
    decoder blocks runs zero times and the call does not return: it
    raises, and leaves the instance without [upmodel], [extra_block] and
    [final_conv].  If the bottleneck was not built the exception is
    [IndexError]; if it was built it was built for the last recorded
    activation, and the exception is the one the bottleneck raises on that
    activation or, once the bottleneck has been applied,
    [AttributeError], raised by reading [self.upmodel]. *)
Theorem empty_selection_no_decoder :
  sfs_idxs call.1 = Some [] →
  is_Ok call.2 = false
  ∧ upmodel call.1 = None ∧ extra_block call.1 = None ∧ final_conv call.1 = None
  ∧ (middle_conv call.1 = None → call.2 = Raise IndexError)
  ∧ ∀ layers : list layer,
      middle_conv call.1 = Some layers →
      ∃ (recorder : SaveFeatures) (x1 : tensor),
        py_index (sfs call.1) (-1) = Ok recorder
        ∧ features recorder = Some x1
        ∧ (∀ x2 : tensor,
             Sequential_call layers (F_relu x1) = Ok x2 → call.2 = Raise AttributeError)
        ∧ (∀ e : exn,
             Sequential_call layers (F_relu x1) = Raise e → call.2 = Raise e).
Proof.
  intros Hempty.
  assert (is_Ok call.2 = false
          ∧ upmodel call.1 = None ∧ extra_block call.1 = None ∧ final_conv call.1 = None)
    as (Hr & Hup & Hextra & Hfin).
  { destruct (first_forward_cases enc l nc x call.1 call.2) as
      [(_ & Hup & Hextra & Hfin & Hr)
      | (szs & idxs & sz & c & _ & _ & _ & Hidxs & _ & _ & _ &
         [(Hfin & Hr & Hnone) | (blocks & block & c' & sz0 & _ & _ & Hne & _)])];
      [apply surjective_pairing | done | |].
    - rewrite Hidxs in Hempty. injection Hempty as ->.
      destruct (Hnone eq_refl) as [Hup Hextra]. done.
    - rewrite Hidxs in Hempty. by injection Hempty as ->. }
  do 4 (split; [done |]).
  destruct (empty_selection_cases enc l nc x call.1 call.2) as
    [(Hmc & Hraise) | (layers & recorder & x1 & Hmc & Hrec & Hfeat & Hseq)];
    [apply surjective_pairing | done | |].
  - split; [done |]. intros layers Hlayers. congruence.
  - split; [congruence |]. intros layers' Hlayers.
    rewrite Hmc in Hlayers. injection Hlayers as <-.
    exists recorder, x1. do 2 (split; [done |]).
    destruct (Sequential_call layers (F_relu x1)) as [x2 | e]; split; congruence.
Qed.

End First_call_empty.

End Empty_selection.

(** The encoder of constant resolution: the selection is empty, the
    bottleneck is built and applied, and the call raises
    [AttributeError]. *)
Lemma empty_selection_no_decoder_witness :
  is_Ok constant_resolution_run.2 = false
  ∧ upmodel constant_resolution_run.1 = None
  ∧ extra_block constant_resolution_run.1 = None
  ∧ final_conv constant_resolution_run.1 = None
  ∧ constant_resolution_run.2 = Raise AttributeError.
Proof.
  destruct (@empty_selection_no_decoder torch constant_resolution true 1 [1; 3; 32; 32])
    as (Hr & Hup & Hextra & Hfin & _ & Hbuilt); [vm_compute; reflexivity |].
  do 4 (split; [assumption |]).
  destruct (Hbuilt (conv_bn_relu 16 (16 * 2) 3 1 1 ++ conv_bn_relu (16 * 2) 16 3 1 1))
    as (recorder & x1 & Hrec & Hfeat & Happlied & _); [vm_compute; reflexivity |].
  assert (x1 = [1; 16; 32; 32]) as ->.
  { vm_compute in Hrec. injection Hrec as <-. vm_compute in Hfeat. congruence. }
  apply (Happlied [1; 16; 32; 32]). vm_compute. reflexivity.
Defined.

(** ** Calls that cannot return *)

Section Calls_that_raise.
Context `{TensorRuntime}.

(** X10.  On an encoder without children the first call raises
    [IndexError], whatever the input and the value of [last], and assigns
    no part of the decoder. *)
Theorem empty_encoder_first_call (l : bool) (nc : Z) (x : tensor) :
  (first_call [] l nc x).2 = Raise IndexError
  ∧ middle_conv (first_call [] l nc x).1 = None
  ∧ upmodel (first_call [] l nc x).1 = None
  ∧ final_conv (first_call [] l nc x).1 = None.
Proof. by destruct l. Qed.

(** X11.  A first call returns only on an encoder with at least one
    child, and with [last = true] only on one with at least two. *)
Theorem first_call_needs_children (enc : list stage) (l : bool) (nc : Z) (x : tensor) :
  is_Ok (first_call enc l nc x).2 = true →
  (1 ≤ length enc)%nat ∧ (l = true → (2 ≤ length enc)%nat).
Proof.
  destruct (first_call enc l nc x) as [m1 [out | e]] eqn:Hcall; [| discriminate].
  intros _.
  apply first_call_Ok_inv in Hcall
    as (ys & x1 & idxs & c & x2 & x3 & s2 & s3 & blocks & y & c'
        & Hys & Hx1 & Hidxs & _).
  assert (length ys = length enc) as <-.
  { clear -Hys. revert x ys Hys. induction enc as [| m enc IH]; intros x ys.
    - by intros [= <-].
    - cbn [activations]. destruct (m x) as [y |]; [| discriminate].
      cbn [mbind result_bind].
      destruct (activations enc y) as [ys' |] eqn:Hys'; [| discriminate].
      intros [= <-]. simpl. by rewrite (IH y ys'). }
  split.
  - apply py_index_Ok_bound in Hx1. lia.
  - intros ->. apply get_sfs_idxs_true_length in Hidxs.
    by rewrite length_fmap in Hidxs.
Qed.

(** X12.  An instance on which [middle_conv] and [upmodel] are assigned
    but [final_conv] is not, as a first call that raised in the middle of
    the construction leaves it, never returns from [forward] again: the
    construction is not resumed, and every later call raises. *)
Theorem half_built_never_returns (s : DynamicUnet) (xs : list tensor) (x : tensor) :
  is_Some (middle_conv s) → is_Some (upmodel s) → final_conv s = None →
  is_Ok (DynamicUnet_forward x (forward_calls xs s)).2 = false
  ∧ topology (DynamicUnet_forward x (forward_calls xs s)).1 = topology s.
Proof.
  intros Hmc Hup Hfin.
  pose proof (forward_calls_built (xs ++ [x]) s Hmc Hup) as Hall.
  unfold forward_calls in Hall. rewrite foldl_app in Hall. cbn [foldl] in Hall.
  fold (forward_calls xs s) in Hall. split; [| done].
  destruct (DynamicUnet_forward x (forward_calls xs s)) as [s' [out | e]] eqn:Hcall;
    [| done].
  apply forward_Ok_tail in Hcall as (_ & _ & _ & _ & final & _ & _ & _ & Hfinal & _).
  cbn [fst] in Hall. unfold topology in Hall. congruence.
Qed.

End Calls_that_raise.

Lemma first_call_needs_children_witness :
  (1 ≤ length resnet_like)%nat ∧ (true = true → (2 ≤ length resnet_like)%nat).
Proof.
  apply (@first_call_needs_children torch resnet_like true 1 [1; 3; 32; 32]).
  vm_compute. reflexivity.
Defined.

(** The instance the halving encoder is left with is such an instance. *)
Lemma half_built_never_returns_witness :
  is_Ok (@DynamicUnet_forward torch [2; 3; 32; 32]
           (@forward_calls torch [[1; 3; 32; 32]] halving_run.1)).2 = false
  ∧ topology (@DynamicUnet_forward torch [2; 3; 32; 32]
                (@forward_calls torch [[1; 3; 32; 32]] halving_run.1)).1
    = topology halving_run.1.
Proof.
  apply (@half_built_never_returns torch halving_run.1 [[1; 3; 32; 32]] [2; 3; 32; 32]).
  - vm_compute. eauto.
  - vm_compute. eauto.
  - vm_compute. reflexivity.
Defined.

(** ** Sizes of what [forward] returns, with the size rules of [torch] *)

Lemma torch_final_conv_Ok (c nc : Z) (x y : tensor) :
  torch_call_layer (Conv2d c nc 1 1 0) x = Ok y →
  ∃ n h w : Z, x = [n; c; h; w] ∧ y = [n; nc; h; w].
Proof.
  destruct x as [| n [| c0 [| h [| w [| ? ?]]]]]; try discriminate.
  cbn [torch_call_layer]. case_bool_decide as Hc; [| discriminate].
  destruct Hc as (-> & _). rewrite !Z.div_1_r. intros [= <-].
  exists n, h, w. split; [done |]. do 2 f_equal. f_equal; [lia |]. f_equal. lia.
Qed.

(** The blocks the construction loop appends are those [UnetBlock]
    builds. *)
Lemma build_upmodel_blocks `{TensorRuntime} (idxs : list Z) (blocks : list UnetBlock)
    (x y : tensor) (s s' : DynamicUnet) :
  build_upmodel idxs blocks x s = (s', Ok y) →
  match idxs with
  | [] => s' = s
  | _ :: _ =>
      ∃ bs, s' = set_upmodel (blocks ++ bs) s ∧ length bs = length idxs
            ∧ Forall (λ b, ∃ up_in_c x_in_c, b = UnetBlock_init up_in_c x_in_c) bs
  end.
Proof.
  revert blocks x s. induction idxs as [| idx idxs IH]; intros blocks x s.
  - by intros [= <- _].
  - cbn [build_upmodel]. py_simpl.
    destruct (py_index x 1) as [up_in_c | e]; [| discriminate].
    destruct (sfs_szs s) as [szs |] eqn:Hszs; [| discriminate].
    destruct (py_index szs idx) as [sz | e]; [| discriminate].
    destruct (py_index sz 1) as [x_in_c | e]; [| discriminate].
    destruct (py_index (sfs s) idx) as [recorder | e]; [| discriminate].
    destruct (UnetBlock_forward _ x (features recorder)) as [x' | e]; [| discriminate].
    intros Hrec. apply IH in Hrec. destruct idxs as [| idx' idxs].
    + exists [UnetBlock_init up_in_c x_in_c]. subst s'.
      split; [done |]. split; [done |]. repeat constructor. by eexists _, _.
    + destruct Hrec as (bs & -> & Hlen & Hall).
      exists (UnetBlock_init up_in_c x_in_c :: bs). rewrite <- app_assoc.
      split; [reflexivity |]. split; [simpl; by rewrite Hlen |].
      constructor; [by eexists _, _ | done].
Qed.

Section Output_sizes.
#[local] Existing Instance torch.

(** Each decoder block doubles both spatial sizes. *)
Lemma run_upsample_size (pairs : list (UnetBlock * Z)) (x y : tensor) (s s' : DynamicUnet)
    (n c h w : Z) :
  Forall (λ b, ∃ up_in_c x_in_c, b = UnetBlock_init up_in_c x_in_c) pairs.*1 →
  run_upsample pairs x s = (s', Ok y) → x = [n; c; h; w] →
  ∃ c', y = [n; c'; 2 ^ Z.of_nat (length pairs) * h; 2 ^ Z.of_nat (length pairs) * w].
Proof.
  revert x c h w. induction pairs as [| [block idx] pairs IH]; intros x c h w Hall.
  - intros [= _ <-] ->. exists c. cbn [length]. by rewrite !Z.mul_1_l.
  - cbn [run_upsample]. py_simpl.
    destruct (py_index (sfs s) idx) as [recorder | e]; [| discriminate].
    destruct (UnetBlock_forward block x (features recorder)) as [x' | e] eqn:Hblock;
      [| discriminate].
    intros Hrec ->. rewrite fmap_cons in Hall. apply Forall_cons in Hall as [Hb Hall].
    destruct Hb as (up_in_c & x_in_c & Hb). cbn [fst] in Hb. subst block.
    apply UnetBlock_forward_Ok in Hblock as (n' & h' & w' & [= <- _ <- <-] & _ & ->).
    destruct (IH _ _ _ _ Hall Hrec eq_refl) as [c' ->]. exists c'.
    cbn [length]. rewrite Nat2Z.inj_succ, Z.pow_succ_r by lia.
    do 2 f_equal. f_equal; [lia |]. f_equal. lia.
Qed.

(** X13.  A first call that returns, returns a batch of [n_classes]
    channels, the batch size being that of the deepest activation [n; c;
    h; w] and both spatial sizes being [h] and [w] times two to the number
    of decoder blocks, the extra block counting as one more; the instance
    has one decoder block per selected skip index. *)
Theorem first_call_output_size (enc : list stage) (l : bool) (nc : Z) (x out : tensor) :
  (first_call enc l nc x).2 = Ok out →
  ∃ (ys : list tensor) (n c h w : Z) (idxs : list Z) (blocks : list UnetBlock),
    activations enc x = Ok ys
    ∧ py_index ys (-1) = Ok [n; c; h; w]
    ∧ sfs_idxs (first_call enc l nc x).1 = Some idxs
    ∧ upmodel (first_call enc l nc x).1 = Some blocks
    ∧ length blocks = length idxs
    ∧ out = [n; nc;
             2 ^ (Z.of_nat (length blocks)
                  + match extra_block (first_call enc l nc x).1 with
                    | Some _ => 1 | None => 0 end) * h;
             2 ^ (Z.of_nat (length blocks)
                  + match extra_block (first_call enc l nc x).1 with
                    | Some _ => 1 | None => 0 end) * w].
Proof.
  destruct (first_call enc l nc x) as [m1 r] eqn:Hcall. cbn [fst snd]. intros ->.
  apply first_call_Ok_inv in Hcall
    as (ys & x1 & idxs & c & x2 & x3 & s2 & s3 & blocks & y & c'
        & Hys & Hx1 & Hidxs & Hc & Hseq & Hsfs2 & Hszs2 & Hup2 & Hbuild & Hup3
        & _ & _ & Hsfs & Hup & Hsel & Hloop & Hfinal & Hout).
  apply bottleneck_call in Hseq as (n & h & w & Hx & Hh & Hw & ->).
  unfold F_relu in Hx. subst x1.
  apply build_upmodel_blocks in Hbuild.
  destruct (py_reversed idxs) as [| idx ridxs] eqn:Hrev; [congruence |].
  destruct Hbuild as (bs & -> & Hlen & Hall). cbn [upmodel set_upmodel app] in Hup3.
  injection Hup3 as ->. rewrite <- Hrev in *. unfold py_reversed in Hlen.
  rewrite length_reverse in Hlen.
  apply (run_upsample_size _ _ _ _ _ n c h w) in Hloop as [cy ->];
    [| rewrite fst_zip; [done | unfold py_reversed; rewrite length_reverse; lia]
     | done].
  rewrite length_zip, Nat.min_l in Hout
    by (unfold py_reversed; rewrite length_reverse; lia).
  exists ys, n, c, h, w, idxs, blocks. do 5 (split; [done |]).
  cbn [call_layer torch] in Hout.
  destruct (extra_block m1) as [extra |].
  - destruct Hout as (-> & y' & Hy' & Hout).
    apply torch_upconv_Ok in Hy' as (n' & h' & w' & [= <- <- <- <-] & ->).
    apply result_fmap_Ok in Hout as (out' & Hout & ->).
    apply torch_final_conv_Ok in Hout as (n' & h' & w' & [= <- <- <-] & ->).
    unfold sigmoid. rewrite Z.pow_add_r, Z.pow_1_r by lia.
    do 2 f_equal. f_equal; [lia |]. f_equal. lia.
  - apply result_fmap_Ok in Hout as (out' & Hout & ->).
    apply torch_final_conv_Ok in Hout as (n' & h' & w' & [= <- _ <- <-] & ->).
    unfold sigmoid. by rewrite Z.add_0_r.
Qed.

End Output_sizes.

Lemma first_call_output_size_witness :
  ∃ (ys : list tensor) (n c h w : Z) (idxs : list Z) (blocks : list UnetBlock),
    activations resnet_like [1; 3; 32; 32] = Ok ys
    ∧ py_index ys (-1) = Ok [n; c; h; w]
    ∧ sfs_idxs resnet_like_run.1 = Some idxs
    ∧ upmodel resnet_like_run.1 = Some blocks
    ∧ length blocks = length idxs
    ∧ [1; 1; 32; 32]
      = [n; 1;
         2 ^ (Z.of_nat (length blocks)
              + match extra_block resnet_like_run.1 with
                | Some _ => 1 | None => 0 end) * h;
         2 ^ (Z.of_nat (length blocks)
              + match extra_block resnet_like_run.1 with
                | Some _ => 1 | None => 0 end) * w].
Proof.
  apply (first_call_output_size resnet_like true 1 [1; 3; 32; 32] [1; 1; 32; 32]).
  vm_compute. reflexivity.
Defined.

Section Later_calls.
#[local] Existing Instance torch.

Lemma forward_calls_built_eq (xs : list tensor) (s : DynamicUnet) :
  is_Some (middle_conv s) → is_Some (upmodel s) →
  ∃ v, forward_calls xs s = set_sfs v s.
Proof.
  revert s. induction xs as [| x xs IH]; intros s Hmc Hup.
  - exists (sfs s). apply set_sfs_id.
  - destruct (forward_built_frame x s Hmc Hup) as [v Hv].
    unfold forward_calls in *. cbn [foldl]. rewrite Hv.
    destruct (IH (set_sfs v s)) as [v' ->]; [done .. |]. by exists v'.
Qed.

(** What a call on a built instance that returns has gone through. *)
Lemma forward_built_Ok_inv (x out : tensor) (s s' : DynamicUnet)
    (layers : list layer) (blocks : list UnetBlock) :
  middle_conv s = Some layers → upmodel s = Some blocks →
  DynamicUnet_forward x s = (s', Ok out) →
  ∃ (ys : list tensor) (x1 x2 y : tensor) (idxs : list Z) (final : layer),
    activations (encoder s) x = Ok ys
    ∧ py_index (x :: ys) (-1) = Ok x1
    ∧ Sequential_call layers (F_relu x1) = Ok x2
    ∧ sfs_idxs s = Some idxs
    ∧ run_upsample (zip blocks (py_reversed idxs)) x2 s' = (s', Ok y)
    ∧ final_conv s = Some final
    ∧ match extra_block s with
      | Some extra =>
          ∃ y', call_layer extra y = Ok y' ∧ sigmoid <$> call_layer final y' = Ok out
      | None => sigmoid <$> call_layer final y = Ok out
      end.
Proof.
  intros Hmc Hup. unfold DynamicUnet_forward. py_simpl.
  pose proof (encoder_call_result (encoder s) 0 x s) as Hres.
  destruct (encoder_call (encoder s) 0 x s) as [s1 [x1 | e]] eqn:Henc;
    destruct (encoder_call_frame (encoder s) 0 x s) as [v Hv];
    rewrite Henc in Hv; cbn [fst] in Hv; subst s1; [| discriminate].
  cbn [snd] in Hres. symmetry in Hres.
  apply result_bind_Ok in Hres as (ys & Hys & Hx1).
  repeat progress (py_simpl; rewrite ?Hmc, ?Hup).
  destruct (Sequential_call layers (F_relu x1)) as [x2 | e] eqn:Hseq; [| discriminate].
  repeat progress (py_simpl; rewrite ?Hmc, ?Hup).
  destruct (sfs_idxs s) as [idxs |] eqn:Hidxs; [| discriminate].
  py_simpl.
  match goal with |- context [run_upsample ?p ?z ?s1] =>
    pose proof (run_upsample_frame p z s1) as Hf;
    destruct (run_upsample p z s1) as [s2 [y | e]] eqn:Hloop end;
    [| discriminate].
  cbn [fst] in Hf. subst s2. py_simpl.
  destruct (extra_block s) as [extra |]; py_simpl.
  - destruct (call_layer extra y) as [y' | e] eqn:Hy'; [| discriminate].
    destruct (final_conv s) as [final |] eqn:Hfinal; [| discriminate]. py_simpl.
    destruct (call_layer final y') as [out' | e] eqn:Hout; [| discriminate].
    intros [<- [= <-]]%pair_equal_spec.
    exists ys, x1, x2, y, idxs, final. do 6 (split; [done |]).
    exists y'. by rewrite ?Hout.
  - destruct (final_conv s) as [final |] eqn:Hfinal; [| discriminate]. py_simpl.
    destruct (call_layer final y) as [out' | e] eqn:Hout; [| discriminate].
    intros [<- [= <-]]%pair_equal_spec.
    exists ys, x1, x2, y, idxs, final. do 6 (split; [done |]). by rewrite ?Hout.
Qed.

(** X14.  After a first call that returned, every later call that returns,
    whatever the batch size and the spatial size of its input, returns a
    batch of [n_classes] channels whose spatial sizes are those of the
    deepest activation of that call times two to the number of decoder
    blocks of the cached topology, the extra block counting as one more. *)
Theorem later_call_output_size (enc : list stage) (l : bool) (nc : Z) (x : tensor)
    (xs : list tensor) (x' out' : tensor) :
  is_Ok (first_call enc l nc x).2 = true →
  (DynamicUnet_forward x' (forward_calls xs (first_call enc l nc x).1)).2 = Ok out' →
  ∃ (ys' : list tensor) (n c h w : Z) (blocks : list UnetBlock),
    activations enc x' = Ok ys'
    ∧ py_index ys' (-1) = Ok [n; c; h; w]
    ∧ upmodel (first_call enc l nc x).1 = Some blocks
    ∧ out' = [n; nc;
              2 ^ (Z.of_nat (length blocks)
                   + match extra_block (first_call enc l nc x).1 with
                     | Some _ => 1 | None => 0 end) * h;
              2 ^ (Z.of_nat (length blocks)
                   + match extra_block (first_call enc l nc x).1 with
                     | Some _ => 1 | None => 0 end) * w].
Proof.
  destruct (first_call enc l nc x) as [m1 [out | e]] eqn:Hcall; [| discriminate].
  cbn [fst snd]. intros _ Hlater.
  apply (@first_call_Ok_inv torch) in Hcall
    as (ys & x1 & idxs & c & x2 & x3 & s2 & s3 & blocks & y & c'
        & Hys & Hx1 & Hidxs & Hc & Hseq & Hsfs2 & Hszs2 & Hup2 & Hbuild & Hup3
        & Henc & Hmc & Hsfs & Hup & Hsel & Hloop & Hfinal & Hextra).
  assert (∃ bs, blocks = bs ∧ length bs = length idxs
                ∧ Forall (λ b, ∃ up_in_c x_in_c, b = UnetBlock_init up_in_c x_in_c) bs)
    as (bs & -> & Hlen & Hall).
  { apply build_upmodel_blocks in Hbuild.
    destruct (py_reversed idxs) as [| idx ridxs] eqn:Hrev; [congruence |].
    destruct Hbuild as (bs & -> & Hlen & Hall). cbn [upmodel set_upmodel app] in Hup3.
    injection Hup3 as ->. exists blocks. split; [done |]. split; [| done].
    rewrite Hlen, <- Hrev. unfold py_reversed. by rewrite length_reverse. }
  destruct (forward_calls_built_eq xs m1) as [v Hv]; [by rewrite ?Hmc, ?Hup ..|].
  rewrite Hv in Hlater. clear Hv.
  destruct (DynamicUnet_forward x' (set_sfs v m1)) as [s' r] eqn:Hcall'.
  cbn [snd] in Hlater. subst r.
  destruct (forward_built_Ok_inv x' out' (set_sfs v m1) s' _ bs Hmc Hup Hcall')
    as (ys' & x1' & x2' & y' & idxs' & final & Hys' & Hx1' & Hseq' & Hidxs' & Hloop'
        & Hfinal' & Hout').
  cbn [encoder sfs_idxs final_conv extra_block set_sfs] in *.
  rewrite Henc in Hys'. rewrite Hsel in Hidxs'. injection Hidxs' as <-.
  rewrite Hfinal in Hfinal'. injection Hfinal' as <-.
  apply bottleneck_call in Hseq' as (n & h & w & Hx & Hh & Hw & ->).
  unfold F_relu in Hx. subst x1'.
  assert (py_index ys' (-1) = Ok [n; c; h; w]) as Hlast.
  { destruct ys' as [| y0 ys']; [| by rewrite py_index_cons_last in Hx1'].
    destruct enc as [| m enc]; [by injection Hys as <- |]. cbn [activations] in Hys'.
    destruct (m x'); [| discriminate]. cbn [mbind result_bind] in Hys'.
    by destruct (activations enc _). }
  apply (run_upsample_size _ _ _ _ _ n c h w) in Hloop' as [cy ->];
    [| rewrite fst_zip; [done | unfold py_reversed; rewrite length_reverse; lia]
     | done].
  rewrite length_zip, Nat.min_l in Hout'
    by (unfold py_reversed; rewrite length_reverse; lia).
  exists ys', n, c, h, w, bs. do 3 (split; [done |]).
  cbn [call_layer torch] in Hout', Hextra.
  destruct (extra_block m1) as [extra |].
  - destruct Hextra as [-> _]. destruct Hout' as (z & Hz & Hout').
    apply torch_upconv_Ok in Hz as (n' & h' & w' & [= <- <- <- <-] & ->).
    apply result_fmap_Ok in Hout' as (o & Hout' & ->).
    apply torch_final_conv_Ok in Hout' as (n' & h' & w' & [= <- <- <-] & ->).
    unfold sigmoid. rewrite Z.pow_add_r, Z.pow_1_r by lia.
    do 2 f_equal. f_equal; [lia |]. f_equal. lia.
  - apply result_fmap_Ok in Hout' as (o & Hout' & ->).
    apply torch_final_conv_Ok in Hout' as (n' & h' & w' & [= <- _ <- <-] & ->).
    unfold sigmoid. by rewrite Z.add_0_r.
Qed.

End Later_calls.

Lemma later_call_output_size_witness :
  ∃ (ys' : list tensor) (n c h w : Z) (blocks : list UnetBlock),
    activations resnet_like [10; 3; 64; 64] = Ok ys'
    ∧ py_index ys' (-1) = Ok [n; c; h; w]
    ∧ upmodel resnet_like_run.1 = Some blocks
    ∧ [10; 1; 64; 64]
      = [n; 1;
         2 ^ (Z.of_nat (length blocks)
              + match extra_block resnet_like_run.1 with
                | Some _ => 1 | None => 0 end) * h;
         2 ^ (Z.of_nat (length blocks)
              + match extra_block resnet_like_run.1 with
                | Some _ => 1 | None => 0 end) * w].
Proof.
  apply (later_call_output_size resnet_like true 1 [1; 3; 32; 32]
           [[2; 3; 32; 32]] [10; 3; 64; 64] [10; 1; 64; 64]).
  - vm_compute. reflexivity.
  - vm_compute. reflexivity.
Defined.

Section All_skips.
#[local] Existing Instance torch.

Lemma py_reversed_range (k : nat) :
  py_reversed (py_range (S k)) = Z.of_nat k :: py_reversed (py_range k).
Proof.
  unfold py_reversed, py_range. rewrite seq_S, fmap_app, reverse_app. reflexivity.
Qed.

Lemma py_index_length {A} (l : list A) (a : A) :
  py_index (l ++ [a]) (Z.of_nat (length l)) = Ok a.
Proof. by rewrite py_index_nat, list_lookup_middle. Qed.

(** X15.  With [last = false] the first call never returns: the deepest
    activation is then the first skip activation, and the first decoder
    block is asked to concatenate it with its own upsampling, twice its
    size. *)
Theorem all_skips_first_call (enc : list stage) (nc : Z) (x : tensor) :
  is_Ok (first_call enc false nc x).2 = false.
Proof.
  destruct (first_call enc false nc x) as [m1 [out | e]] eqn:Hcall; [| done].
  exfalso. apply (@first_call_Ok_inv torch) in Hcall
    as (ys & x1 & idxs & c & x2 & x3 & s2 & s3 & blocks & y & c'
        & Hys & Hx1 & Hidxs & Hc & Hseq & Hsfs2 & Hszs2 & Hup2 & Hbuild & _).
  apply bottleneck_call in Hseq as (n & h & w & Hx & Hh & Hw & ->).
  unfold F_relu in Hx. subst x1. injection Hidxs as <-.
  destruct (exists_last (l := ys)) as (ys0 & y0 & ->); [by intros -> |].
  rewrite py_index_last in Hx1. injection Hx1 as ->.
  rewrite length_fmap, length_app, Nat.add_1_r, py_reversed_range in Hbuild.
  cbn [build_upmodel] in Hbuild.
  apply Py_bind_Ok in Hbuild as (up_in_c & s & [-> _]%lift_Ok & Hbuild).
  apply Py_bind_Ok in Hbuild as (szs & s & [-> Hszs]%getattr_Ok & Hbuild).
  rewrite Hszs2 in Hszs. injection Hszs as <-.
  apply Py_bind_Ok in Hbuild as (sz & s & [-> Hsz]%lift_Ok & Hbuild).
  rewrite py_index_length in Hsz. injection Hsz as <-.
  apply Py_bind_Ok in Hbuild as (x_in_c & s & [-> _]%lift_Ok & Hbuild).
  apply Py_bind_Ok in Hbuild as (recorders & s & [-> ->]%attr_Ok & Hbuild).
  apply Py_bind_Ok in Hbuild as (recorder & s & [-> Hrec]%lift_Ok & Hbuild).
  rewrite Hsfs2, fmap_app in Hrec. cbn [fmap list_fmap] in Hrec.
  rewrite <- (length_fmap recorded ys0), py_index_length in Hrec.
  injection Hrec as <-.
  apply Py_bind_Ok in Hbuild as (x' & s & [-> Hblock]%lift_Ok & _).
  cbn [features recorded] in Hblock.
  apply UnetBlock_forward_Ok in Hblock as (n' & h' & w' & [= <- _ <- <-] & [= Hh' Hw'] & _).
  lia.
Qed.


Lemma build_upmodel_app (idxs1 idxs2 : list Z) (blocks : list UnetBlock) (x y : tensor)
    (s s' : DynamicUnet) :
  build_upmodel (idxs1 ++ idxs2) blocks x s = (s', Ok y) →
  ∃ blocks' x' s1,
    build_upmodel idxs2 blocks' x' s1 = (s', Ok y)
    ∧ sfs s1 = sfs s ∧ sfs_szs s1 = sfs_szs s.
Proof.
  revert blocks x s. induction idxs1 as [| idx idxs1 IH]; intros blocks x s.
  - intros Hrun. by exists blocks, x, s.
  - cbn [app build_upmodel]. py_simpl.
    destruct (py_index x 1) as [up_in_c | e]; [| discriminate].
    destruct (sfs_szs s) as [szs |] eqn:Hszs; [| discriminate].
    destruct (py_index szs idx) as [sz | e]; [| discriminate].
    destruct (py_index sz 1) as [x_in_c | e]; [| discriminate].
    destruct (py_index (sfs s) idx) as [recorder | e]; [| discriminate].
    destruct (UnetBlock_forward _ x (features recorder)) as [x' | e]; [| discriminate].
    intros (blocks' & x'' & s1 & Hrun & Hsfs & Hszs')%IH.
    exists blocks', x'', s1. split; [done |]. split; [done |].
    by rewrite Hszs', <- Hszs.
Qed.

(** A block that returns was given positive spatial sizes. *)
Lemma UnetBlock_forward_Ok_pos (up_in_c x_in_c : Z) (up_in : tensor)
    (x_in : option tensor) (out : tensor) :
  UnetBlock_forward (UnetBlock_init up_in_c x_in_c) up_in x_in = Ok out →
  ∃ n h w, up_in = [n; up_in_c; h; w]
    ∧ x_in = Some [n; x_in_c; 2 * h; 2 * w]
    ∧ out = [n; (x_in_c + up_in_c `div` 2) `div` 2; 2 * h; 2 * w]
    ∧ 1 ≤ h ∧ 1 ≤ w.
Proof.
  intros Hout.
  destruct (UnetBlock_forward_Ok _ _ _ _ _ Hout) as (n & h & w & -> & -> & ->).
  exists n, h, w. do 3 (split; [done |]).
  revert Hout. unfold UnetBlock_forward, UnetBlock_init.
  cbn [call_layer cat_dim1 torch upconv conv1 conv2 bn].
  rewrite torch_upconv. cbn [mbind result_bind]. rewrite torch_cat.
  cbn [mbind result_bind]. intros Hout.
  apply result_bind_Ok in Hout as (x1 & H1 & _).
  apply result_fmap_Ok in H1 as (x1' & H1 & _).
  apply torch_conv3_Ok in H1 as (n1 & h1 & w1 & [= _ _ <- <-] & _ & ? & ?). lia.
Qed.

(** X16.  When the selection of skip indices that a first call stores
    begins with the index 0 twice, as it does whenever the first two
    recorded activations differ in size, the call has raised: the last
    two decoder blocks would both have to concatenate the activation of
    child 0, the second of them with a tensor twice its size. *)
Theorem repeated_skip_first_call (enc : list stage) (l : bool) (nc : Z) (x : tensor)
    (rest : list Z) :
  sfs_idxs (first_call enc l nc x).1 = Some (0 :: 0 :: rest) →
  is_Ok (first_call enc l nc x).2 = false.
Proof.
  destruct (first_call enc l nc x) as [m1 [out | e]] eqn:Hcall; [| done].
  cbn [fst snd]. intros Hrep. exfalso.
  apply (@first_call_Ok_inv torch) in Hcall
    as (ys & x1 & idxs & c & x2 & x3 & s2 & s3 & blocks & y & c'
        & Hys & Hx1 & Hidxs & Hc & Hseq & Hsfs2 & Hszs2 & Hup2 & Hbuild & Hup3
        & _ & _ & _ & _ & Hsel & _).
  rewrite Hsel in Hrep. injection Hrep as ->.
  unfold py_reversed in Hbuild. rewrite !reverse_cons, <- app_assoc in Hbuild.
  apply build_upmodel_app in Hbuild as (bs & z & s1 & Hbuild & Hsfs1 & Hszs1).
  rewrite Hsfs2 in Hsfs1. rewrite Hszs2 in Hszs1.
  cbn [app build_upmodel] in Hbuild.
  apply Py_bind_Ok in Hbuild as (up_in_c & s & [-> _]%lift_Ok & Hbuild).
  apply Py_bind_Ok in Hbuild as (szs & s & [-> _]%getattr_Ok & Hbuild).
  apply Py_bind_Ok in Hbuild as (sz & s & [-> _]%lift_Ok & Hbuild).
  apply Py_bind_Ok in Hbuild as (x_in_c & s & [-> _]%lift_Ok & Hbuild).
  apply Py_bind_Ok in Hbuild as (recorders & s & [-> ->]%attr_Ok & Hbuild).
  apply Py_bind_Ok in Hbuild as (recorder & s & [-> Hrec]%lift_Ok & Hbuild).
  apply Py_bind_Ok in Hbuild as (z' & s & [-> Hblock]%lift_Ok & Hbuild).
  apply Py_bind_Ok in Hbuild as ([] & s & [= <-] & Hbuild).
  apply Py_bind_Ok in Hbuild as (up_in_c' & s & [-> _]%lift_Ok & Hbuild).
  apply Py_bind_Ok in Hbuild as (szs' & s & [-> _]%getattr_Ok & Hbuild).
  apply Py_bind_Ok in Hbuild as (sz' & s & [-> _]%lift_Ok & Hbuild).
  apply Py_bind_Ok in Hbuild as (x_in_c' & s & [-> _]%lift_Ok & Hbuild).
  apply Py_bind_Ok in Hbuild as (recorders' & s & [-> ->]%attr_Ok & Hbuild).
  apply Py_bind_Ok in Hbuild as (recorder' & s & [-> Hrec']%lift_Ok & Hbuild).
  apply Py_bind_Ok in Hbuild as (z'' & s & [-> Hblock']%lift_Ok & _).
  cbn [sfs set_upmodel] in Hrec'. rewrite Hrec in Hrec'. injection Hrec' as <-.
  apply UnetBlock_forward_Ok_pos in Hblock
    as (n & h & w & -> & Hskip & -> & Hh & Hw).
  apply UnetBlock_forward_Ok_pos in Hblock'
    as (n' & h' & w' & [= <- _ <- <-] & Hskip' & _).
  rewrite Hskip in Hskip'. injection Hskip' as _ ? ?. lia.
Qed.

Lemma repeated_skip_first_call_witness : is_Ok halving_run.2 = false.
Proof.
  apply (repeated_skip_first_call halving true 1 [1; 3; 32; 32] [1; 2]).
  vm_compute. reflexivity.
Defined.

End All_skips.

(** ** The channel counts of the decoder blocks *)

Section Decoder_channels.
#[local] Existing Instance torch.

Lemma build_upmodel_chain (idxs : list Z) (blocks : list UnetBlock) (x y : tensor)
    (s s' : DynamicUnet) (ys : list tensor) (up_in_c : Z) :
  build_upmodel idxs blocks x s = (s', Ok y) →
  sfs_szs s = Some ys → py_index x 1 = Ok up_in_c →
  ∃ cs : list Z,
    mapM (λ idx, sz ← py_index ys idx; py_index sz 1) idxs = Ok cs
    ∧ match idxs with
      | [] => s' = s
      | _ :: _ => s' = set_upmodel (blocks ++ decoder_blocks up_in_c cs) s
      end.
Proof.
  revert blocks x s up_in_c. induction idxs as [| idx idxs IH]; intros blocks x s up_in_c.
  - intros [= <- _] _ _. by exists [].
  - cbn [build_upmodel]. py_simpl. intros Hrun Hszs Hup. revert Hrun.
    rewrite Hup, Hszs. py_simpl.
    destruct (py_index ys idx) as [sz | e] eqn:Hsz; [| discriminate].
    destruct (py_index sz 1) as [x_in_c | e] eqn:Hc; [| discriminate].
    destruct (py_index (sfs s) idx) as [recorder | e]; [| discriminate].
    destruct (UnetBlock_forward _ x (features recorder)) as [x' | e] eqn:Hblock;
      [| discriminate].
    apply UnetBlock_forward_Ok in Hblock as (n & h & w & _ & _ & ->).
    intros Hrec. apply (IH _ _ _ ((x_in_c + up_in_c `div` 2) `div` 2)) in Hrec
      as (cs & Hcs & Hs'); [| done | apply py_index_1].
    exists (x_in_c :: cs). rewrite mapM_result_cons, Hsz. cbn [mbind result_bind].
    rewrite Hc, Hcs. split; [done |]. cbn [decoder_blocks].
    destruct idxs as [| idx' idxs].
    + injection Hcs as <-. by subst s'.
    + subst s'. by rewrite <- app_assoc.
Qed.

(** X17.  In a first call that returns, the decoder blocks are sized as a
    chain: the first is built for the channel count [c] of the deepest
    activation and that of the skip activation at the last selected
    index; each next one for the channel count its predecessor returns,
    [(x_in_c + up_in_c // 2) // 2], and that of the skip activation at the
    selected index before. *)
Theorem decoder_blocks_chain (enc : list stage) (l : bool) (nc : Z) (x out : tensor) :
  (first_call enc l nc x).2 = Ok out →
  ∃ (ys : list tensor) (sz : tensor) (c : Z) (idxs cs : list Z),
    activations enc x = Ok ys
    ∧ py_index ys (-1) = Ok sz ∧ py_index sz 1 = Ok c
    ∧ sfs_idxs (first_call enc l nc x).1 = Some idxs
    ∧ mapM (λ idx, sz ← py_index ys idx; py_index sz 1) (py_reversed idxs) = Ok cs
    ∧ upmodel (first_call enc l nc x).1 = Some (decoder_blocks c cs).
Proof.
  destruct (first_call enc l nc x) as [m1 r] eqn:Hcall. cbn [fst snd]. intros ->.
  apply (@first_call_Ok_inv torch) in Hcall
    as (ys & x1 & idxs & c & x2 & x3 & s2 & s3 & blocks & y & c'
        & Hys & Hx1 & Hidxs & Hc & Hseq & Hsfs2 & Hszs2 & Hup2 & Hbuild & Hup3
        & _ & _ & _ & Hup & Hsel & _).
  apply bottleneck_call in Hseq as (n & h & w & Hx & _ & _ & ->).
  unfold F_relu in Hx. subst x1. clear Hc.
  apply (build_upmodel_chain _ _ _ _ _ _ ys c) in Hbuild as (cs & Hcs & Hs3);
    [| done | apply py_index_1].
  exists ys, [n; c; h; w], c, idxs, cs. do 5 (split; [done |]).
  destruct (py_reversed idxs) as [| idx ridxs]; [congruence |].
  subst s3. cbn [upmodel set_upmodel app] in Hup3. congruence.
Qed.

End Decoder_channels.

Lemma decoder_blocks_chain_witness :
  ∃ (ys : list tensor) (sz : tensor) (c : Z) (idxs cs : list Z),
    activations resnet_like [1; 3; 32; 32] = Ok ys
    ∧ py_index ys (-1) = Ok sz ∧ py_index sz 1 = Ok c
    ∧ sfs_idxs resnet_like_run.1 = Some idxs
    ∧ mapM (λ idx, sz ← py_index ys idx; py_index sz 1) (py_reversed idxs) = Ok cs
    ∧ upmodel resnet_like_run.1 = Some (decoder_blocks c cs).
Proof.
  apply (decoder_blocks_chain resnet_like true 1 [1; 3; 32; 32] [1; 1; 32; 32]).
  vm_compute. reflexivity.
Defined.

(** ** get_sfs_idxs on recorders that hold no usable activation *)

Lemma mapM_result_Raise {A B} (f : A → result B) (pre post : list A) (a : A) (e : exn) :
  Forall (λ b, is_Ok (f b) = true) pre → f a = Raise e →
  mapM f (pre ++ a :: post) = Raise e.
Proof.
  intros Hpre Ha. induction Hpre as [| b pre Hb _ IH].
  - cbn [app]. by rewrite mapM_result_cons, Ha.
  - cbn [app]. rewrite mapM_result_cons, IH. by destruct (f b).
Qed.

(** X18.  With [last = true], a recorder that has recorded nothing makes
    [get_sfs_idxs] raise [AttributeError], and one that holds a tensor
    without dimensions makes it raise [IndexError], when the recorders
    before it hold tensors of rank at least one. *)
Theorem get_sfs_idxs_unrecorded (pre post : list SaveFeatures) (sf : SaveFeatures) :
  Forall (λ r, ∃ sz w, features r = Some (sz ++ [w])) pre →
  (features sf = None → get_sfs_idxs (pre ++ sf :: post) true = Raise AttributeError)
  ∧ (features sf = Some [] → get_sfs_idxs (pre ++ sf :: post) true = Raise IndexError).
Proof.
  intros Hpre.
  assert (Forall (λ b, is_Ok (sz ← features_size b; py_index sz (-1)) = true) pre) as Hok.
  { eapply Forall_impl; [exact Hpre |]. intros r (sz & w & Hr). cbv beta.
    unfold features_size. rewrite Hr. cbn [mbind result_bind].
    by rewrite py_index_last. }
  split; intros Hsf; unfold get_sfs_idxs;
    (erewrite mapM_result_Raise; [reflexivity | exact Hok |]);
    unfold features_size; by rewrite Hsf.
Qed.

Lemma get_sfs_idxs_unrecorded_witness :
  get_sfs_idxs ([recorded [1; 3; 8; 8]] ++ {| features := None |} :: []) true
  = Raise AttributeError.
Proof.
  apply (get_sfs_idxs_unrecorded [recorded [1; 3; 8; 8]] [] {| features := None |}).
  - repeat constructor. by eexists [_; _; _], _.
  - reflexivity.
Defined.
